(** * The action execution engine of [src/actions.py]

    A shallow embedding of the engine that executes declarative browser
    actions: the condition evaluator, the five single-action executors, the
    dispatcher [_execute_single_action], the group executor
    [_execute_action_group], the run coordinator [execute_actions] and the
    report [ActionExecutionResults].

    Python dictionaries are finite maps from strings to dynamically typed
    values; the Selenium driver, the clock, the random generator and the
    logger are an interface ([Environment]) whose every call is recorded in a
    trace, so that "nothing more was done to the driver" is an equation
    between states.  Exceptions are explicit outcomes.

    Idealisations.  The source's seconds, which are floats, are integers in
    milliseconds here: the clock has millisecond resolution, dividing by
    [1000.0] loses nothing (it still raises for an integer no float can
    hold), and [int(timeout * 1000)] gives back the timeout it was computed
    from.  Values are those of JSON without fractional numbers.  A string is
    a sequence of [ascii] characters, each standing for one code point, so
    text outside that range is not covered. *)

From stdpp Require Import gmap strings list fin_maps pretty.
From Stdlib Require Import ZArith Lia.

#[local] Open Scope string_scope.
#[local] Open Scope list_scope.
#[local] Open Scope Z_scope.

(** ** Python values *)

(** The JSON-like data an action list is made of.  Numbers are integers
    (milliseconds throughout the source); JSON floats are not modelled. *)
#[warnings="-register-all"]
Inductive value : Type :=
| VNone
| VBool (b : bool)
| VInt (z : Z)
| VStr (s : string)
| VList (l : list value)
| VDict (d : gmap string value).

Inductive exn_class : Type :=
| TimeoutException
| NoSuchElementException
| WebDriverException
| ValueError
| TypeError
| AttributeError
| KeyError
| IndexError
| OverflowError
| RegexError.

(** A raised exception: its class and the argument it was built with.  Every
    class above derives from Python's [Exception]. *)
Record exn : Type := mk_exn { exn_class_of : exn_class; exn_arg : string }.

Inductive outcome (A : Type) : Type :=
| Ok (a : A)
| Raise (e : exn).
Arguments Ok {A} a.
Arguments Raise {A} e.

#[global] Instance outcome_ret : MRet outcome := λ A a, Ok a.
#[global] Instance outcome_bind : MBind outcome :=
  λ A B f m, match m with Ok a => f a | Raise e => Raise e end.
#[global] Instance outcome_fmap : FMap outcome :=
  λ A B f m, match m with Ok a => Ok (f a) | Raise e => Raise e end.

Definition type_name (v : value) : string :=
  match v with
  | VNone => "NoneType"
  | VBool _ => "bool"
  | VInt _ => "int"
  | VStr _ => "str"
  | VList _ => "list"
  | VDict _ => "dict"
  end.

Definition attribute_error {A} (v : value) (attr : string) : outcome A :=
  Raise (mk_exn AttributeError
           ("'" +:+ type_name v +:+ "' object has no attribute '" +:+ attr +:+ "'")).

Definition type_error {A} (msg : string) : outcome A :=
  Raise (mk_exn TypeError msg).

(** [bool(v)] / [if v:] *)
Definition py_truthy (v : value) : bool :=
  match v with
  | VNone => false
  | VBool b => b
  | VInt z => negb (z =? 0)
  | VStr s => negb (bool_decide (s = ""))
  | VList l => match l with [] => false | _ => true end
  | VDict d => negb (bool_decide (d = ∅))
  end.

(** [v == 'literal'] *)
Definition py_eq_str (v : value) (s : string) : bool :=
  match v with
  | VStr s' => bool_decide (s' = s)
  | _ => false
  end.

(** [v.get(key, default)] *)
Definition py_get (v : value) (key : string) (dflt : value) : outcome value :=
  match v with
  | VDict d => Ok (default dflt (d !! key))
  | _ => attribute_error v "get"
  end.

Fixpoint substringb (p s : string) : bool :=
  String.prefix p s
  || match s with
     | EmptyString => false
     | String _ s' => substringb p s'
     end.

(** ['key' in v] *)
Definition py_contains (key : string) (v : value) : outcome bool :=
  match v with
  | VDict d => Ok (bool_decide (is_Some (d !! key)))
  | VStr s => Ok (substringb key s)
  | VList l => Ok (existsb (λ x, py_eq_str x key) l)
  | _ => type_error ("argument of type '" +:+ type_name v +:+ "' is not iterable")
  end.

(** [v['key']] *)
Definition py_getitem (v : value) (key : string) : outcome value :=
  match v with
  | VDict d =>
      match d !! key with
      | Some x => Ok x
      | None => Raise (mk_exn KeyError key)
      end
  | VStr _ => type_error "string indices must be integers"
  | VList _ => type_error "list indices must be integers or slices, not str"
  | _ => type_error ("'" +:+ type_name v +:+ "' object is not subscriptable")
  end.

(** The characters of a string, each a string of length one. *)
Definition chars_of (s : string) : list value :=
  (λ c, VStr (String c EmptyString)) <$> String.list_ascii_of_string s.

(** [for x in v] *)
Definition py_iter (v : value) : outcome (list value) :=
  match v with
  | VList l => Ok l
  | VStr s => Ok (chars_of s)
  | VDict d => Ok (VStr <$> (map_to_list d).*1)
  | _ => type_error ("'" +:+ type_name v +:+ "' object is not iterable")
  end.

(** [len(v)] *)
Definition py_len (v : value) : outcome nat :=
  match v with
  | VList l => Ok (length l)
  | VStr s => Ok (String.length s)
  | VDict d => Ok (size d)
  | _ => type_error ("object of type '" +:+ type_name v +:+ "' has no len()")
  end.

(** [v[j]] for a non-negative integer [j] *)
Definition py_index (v : value) (j : nat) : outcome value :=
  match v with
  | VList l =>
      match l !! j with
      | Some x => Ok x
      | None => Raise (mk_exn IndexError "list index out of range")
      end
  | VStr s =>
      match chars_of s !! j with
      | Some x => Ok x
      | None => Raise (mk_exn IndexError "string index out of range")
      end
  | VDict _ => Raise (mk_exn KeyError "")
  | _ => type_error ("'" +:+ type_name v +:+ "' object is not subscriptable")
  end.

(** The least magnitude of an integer that does not fit a float: halfway
    between the largest double, 2^1024 - 2^971, and 2^1024, from where the
    conversion rounds to infinity and raises. *)
Definition float_overflow : Z := 2 ^ 1024 - 2 ^ 970.

(** [v / 1000.0]: the number of milliseconds [v] stands for, the source's
    seconds being kept in milliseconds.  The division converts an integer to
    a float first, which raises for one too large. *)
Definition py_number (v : value) : outcome Z :=
  match v with
  | VInt z =>
      if float_overflow <=? Z.abs z
      then Raise (mk_exn OverflowError "int too large to convert to float")
      else Ok z
  | VBool b => Ok (if b then 1 else 0)
  | _ => type_error ("unsupported operand type(s) for /: '" +:+ type_name v
                     +:+ "' and 'float'")
  end.

(** [v > 0] *)
Definition py_gt_zero (v : value) : outcome bool :=
  match v with
  | VInt z => Ok (0 <? z)
  | VBool b => Ok b
  | _ => type_error ("'>' not supported between instances of '" +:+ type_name v
                     +:+ "' and 'int'")
  end.

(** [selector.startswith('//') or selector.startswith('(//')]: the
    addressing scheme of a selector. *)
Inductive By : Type := XPATH | CSS_SELECTOR.

Definition selector_scheme (selector : value) : outcome (By * string) :=
  match selector with
  | VStr s =>
      Ok (if String.prefix "//" s || String.prefix "(//" s
          then XPATH else CSS_SELECTOR, s)
  | _ => attribute_error selector "startswith"
  end.

(** ** The outside world

    What the engine calls and cannot see into: the clock, the sleeps, the
    random generator and the logger ([sys_op], which never raise), and the
    Selenium driver ([driver_op], each of which may raise).  Durations and
    timeouts are integers in milliseconds. *)

Inductive log_level : Type := WARNING | ERROR.

Inductive sys_op : Type → Type :=
| time_time : sys_op Z
| time_sleep (ms : Z) : sys_op unit
| random_uniform (lo hi : Z) : sys_op Z
| random_randint (lo hi : Z) : sys_op Z
| logging (level : log_level) (msg : string) : sys_op unit.

(** The conditions [WebDriverWait(...).until] is given, apart from
    [presence_of_element_located], which returns the element. *)
Inductive until_condition : Type :=
| visibility_of_element_located (by_ : By) (sel : string)
| invisibility_of_element_located (by_ : By) (sel : string)
| ready_state_in (states : list string)
| url_differs_from (url : string).

Inductive key : Type := Key (v : value) | ENTER.

(** The steps queued on an [ActionChains] object. *)
Inductive chain_step (Element : Type) : Type :=
| move_to_element_with_offset (e : Element) (x y : Z)
| click (target : option Element)
| send_keys (k : key)
| chain_pause (ms : Z).
Arguments move_to_element_with_offset {Element} e x y.
Arguments click {Element} target.
Arguments send_keys {Element} k.
Arguments chain_pause {Element} ms.

Inductive driver_op (Element : Type) : Type → Type :=
| find_elements (by_ : By) (sel : string) : driver_op Element (list Element)
| find_element (by_ : By) (sel : string) : driver_op Element Element
| is_displayed (e : Element) : driver_op Element bool
| element_text (e : Element) : driver_op Element string
| element_clear (e : Element) : driver_op Element unit
| current_url : driver_op Element string
| execute_script (script : value) (args : list Element) : driver_op Element value
| until_presence (by_ : By) (sel : string) (timeout : Z) : driver_op Element Element
| until (cond : until_condition) (timeout : Z) : driver_op Element unit
| perform (chain : list (chain_step Element)) : driver_op Element unit.
Arguments find_elements {Element} by_ sel.
Arguments find_element {Element} by_ sel.
Arguments is_displayed {Element} e.
Arguments element_text {Element} e.
Arguments element_clear {Element} e.
Arguments current_url {Element}.
Arguments execute_script {Element} script args.
Arguments until_presence {Element} by_ sel timeout.
Arguments until {Element} cond timeout.
Arguments perform {Element} chain.

Inductive event (Element : Type) : Type :=
| SysCall {X : Type} (op : sys_op X)
| DriverCall {X : Type} (op : driver_op Element X).
Arguments SysCall {Element X} op.
Arguments DriverCall {Element X} op.

(** The interface the engine runs against.  [re_search] is
    [bool(re.search(pattern, text))], [py_str] the formatting of a value in
    an f-string and [exn_str] is [str(e)]; [random.uniform] stays within its
    bounds; [sleep_limit] is the longest sleep, in milliseconds, that the
    platform's [time.sleep] converts to its clock type, at least half a
    second, and [sleep_overflow] the text of the OverflowError beyond it (both
    depend on the interpreter). *)
Class Environment (World Element : Type) : Type := {
  sys_call : ∀ {X}, sys_op X → World → X * World;
  driver_call : ∀ {X}, driver_op Element X → World → outcome X * World;
  re_search : value → string → outcome bool;
  py_str : value → string;
  exn_str : exn → string;
  sleep_limit : Z;
  sleep_overflow : string;
  random_uniform_range : ∀ lo hi w,
    lo ≤ hi → lo ≤ (sys_call (random_uniform lo hi) w).1 ≤ hi;
  sleep_limit_half_second : 500 ≤ sleep_limit
}.

(** ** Results and the report *)

Record ActionResult : Type := mk_ActionResult {
  index : Z;
  type : value;
  status : string;
  duration : Z;
  message : string;
  selector : value;
  error : option string
}.

Record ActionExecutionResults : Type := mk_ActionExecutionResults {
  details : list ActionResult;
  executed : Z;
  successful : Z;
  failed : Z;
  skipped : Z
}.

(** [ActionExecutionResults()] *)
Definition new_results : ActionExecutionResults :=
  {| details := []; executed := 0; successful := 0; failed := 0; skipped := 0 |}.

Definition add_result (self : ActionExecutionResults) (result : ActionResult)
  : ActionExecutionResults :=
  let details' := details self ++ [result] in
  if bool_decide (status result = "success") then
    {| details := details';
       executed := executed self + 1;
       successful := successful self + 1;
       failed := failed self;
       skipped := skipped self |}
  else if bool_decide (status result = "failed") then
    {| details := details';
       executed := executed self + 1;
       successful := successful self;
       failed := failed self + 1;
       skipped := skipped self |}
  else if bool_decide (status result = "skipped") then
    {| details := details';
       executed := executed self;
       successful := successful self;
       failed := failed self;
       skipped := skipped self + 1 |}
  else
    {| details := details';
       executed := executed self;
       successful := successful self;
       failed := failed self;
       skipped := skipped self |}.

(** [self.error] as the value the truth test of [to_dict] sees. *)
Definition error_value (error : option string) : value :=
  match error with
  | Some e => VStr e
  | None => VNone
  end.

(** [ActionResult.to_dict] *)
Definition ActionResult_to_dict (self : ActionResult) : gmap string value :=
  let result : gmap string value :=
    <["message" := VStr (message self)]>
      (<["duration" := VInt (duration self)]>
         (<["status" := VStr (status self)]>
            (<["type" := type self]>
               (<["index" := VInt (index self)]> ∅)))) in
  let result :=
    if py_truthy (selector self)
    then <["selector" := selector self]> result else result in
  if py_truthy (error_value (error self))
  then <["error" := error_value (error self)]> result else result.

(** [ActionExecutionResults.to_dict] *)
Definition ActionExecutionResults_to_dict (self : ActionExecutionResults)
  : gmap string value :=
  <["details" := VList ((λ r, VDict (ActionResult_to_dict r)) <$> details self)]>
    (<["skipped" := VInt (skipped self)]>
       (<["failed" := VInt (failed self)]>
          (<["successful" := VInt (successful self)]>
             (<["executed" := VInt (executed self)]> ∅)))).

(** The keys [_evaluate_condition] looks for, in the order it tests them. *)
Definition recognized_keys : list string :=
  ["ifExists"; "ifNotExists"; "ifVisible"; "ifHidden";
   "ifTextMatches"; "ifUrlMatches"; "ifCustom"].

(** ** The engine *)

Section Engine.
Context {World Element : Type} `{!Environment World Element}.

(** The state a run threads through: the world and the calls made so far,
    oldest first. *)
Record state : Type := mk_state {
  world : World;
  trace : list (event Element)
}.

(** A computation may change the state and then return or raise; what it
    did before raising stays done. *)
Definition M (A : Type) : Type := state → outcome A * state.

#[global] Instance M_ret : MRet M := λ A a s, (Ok a, s).
#[global] Instance M_bind : MBind M :=
  λ A B f m s, match m s with
               | (Ok a, s') => f a s'
               | (Raise e, s') => (Raise e, s')
               end.

Definition raise {A} (e : exn) : M A := λ s, (Raise e, s).

Definition lift {A} (o : outcome A) : M A := λ s, (o, s).

(** [try: body / except Exception as e: handler e] *)
Definition try_except {A} (body : M A) (handler : exn → M A) : M A :=
  λ s, match body s with
       | (Ok a, s') => (Ok a, s')
       | (Raise e, s') => handler e s'
       end.

Definition sys {X} (op : sys_op X) : M X :=
  λ s, let '(x, w) := sys_call op (world s) in
       (Ok x, {| world := w; trace := trace s ++ [SysCall op] |}).

Definition drv {X} (op : driver_op Element X) : M X :=
  λ s, let '(x, w) := driver_call op (world s) in
       (x, {| world := w; trace := trace s ++ [DriverCall op] |}).

(** [time.sleep(seconds)], the argument in milliseconds: a length the clock
    type cannot hold raises OverflowError, a negative one ValueError. *)
Definition py_sleep (ms : Z) : M unit :=
  if sleep_limit <? Z.abs ms
  then raise (mk_exn OverflowError sleep_overflow)
  else if ms <? 0
  then raise (mk_exn ValueError "sleep length must be non-negative")
  else sys (time_sleep ms).

(** [time.sleep(random.uniform(lo, hi))], bounds in milliseconds *)
Definition pause (lo hi : Z) : M unit :=
  d ← sys (random_uniform lo hi); py_sleep d.

Definition _get_element (selector timeout : value) : M Element :=
  try_except
    ('(by_, sel) ← lift (selector_scheme selector);
     t ← lift (py_number timeout);
     drv (until_presence by_ sel t))
    (λ e, match exn_class_of e with
          | TimeoutException =>
              raise (mk_exn NoSuchElementException
                       ("Element not found: " +:+ py_str selector))
          | _ => raise e
          end).

Definition _element_exists (selector : value) : M bool :=
  try_except
    ('(by_, sel) ← lift (selector_scheme selector);
     elements ← drv (find_elements by_ sel);
     mret (bool_decide (0 < length elements)%nat))
    (λ _, mret false).

Definition _element_visible (selector : value) : M bool :=
  try_except
    ('(by_, sel) ← lift (selector_scheme selector);
     element ← drv (find_element by_ sel);
     drv (is_displayed element))
    (λ _, mret false).

(** The body of the [try] of the [ifTextMatches] branch. *)
Definition text_matches_try (selector pattern : value) : M bool :=
  element ← _get_element selector (VInt 2000);
  t ← drv (element_text element);
  lift (re_search pattern t).

(** The body of the [try] of the [ifCustom] branch. *)
Definition custom_try (condition : value) : M bool :=
  script ← lift (py_getitem condition "ifCustom");
  result ← drv (execute_script script []);
  mret (py_truthy result).

Definition _evaluate_condition (condition : value) : M bool :=
  if negb (py_truthy condition) then mret true else
  b ← lift (py_contains "ifExists" condition);
  if b : bool then
    sel ← lift (py_getitem condition "ifExists"); _element_exists sel
  else
  b ← lift (py_contains "ifNotExists" condition);
  if b : bool then
    sel ← lift (py_getitem condition "ifNotExists");
    r ← _element_exists sel; mret (negb r)
  else
  b ← lift (py_contains "ifVisible" condition);
  if b : bool then
    sel ← lift (py_getitem condition "ifVisible"); _element_visible sel
  else
  b ← lift (py_contains "ifHidden" condition);
  if b : bool then
    sel ← lift (py_getitem condition "ifHidden");
    r ← _element_visible sel; mret (negb r)
  else
  b ← lift (py_contains "ifTextMatches" condition);
  if b : bool then
    payload ← lift (py_getitem condition "ifTextMatches");
    sel ← lift (py_get payload "selector" VNone);
    pattern ← lift (py_get payload "pattern" VNone);
    try_except (text_matches_try sel pattern) (λ _, mret false)
  else
  b ← lift (py_contains "ifUrlMatches" condition);
  if b : bool then
    pattern ← lift (py_getitem condition "ifUrlMatches");
    url ← drv current_url;
    lift (re_search pattern url)
  else
  b ← lift (py_contains "ifCustom" condition);
  if b : bool then
    try_except (custom_try condition) (λ _, mret false)
  else
    mret true.

(** *** Single-action executors *)

Definition wait_default : M string :=
  py_sleep 500;; mret "Default wait executed".

Definition wait_url_change (wait_for : value) : M string :=
  b ← lift (py_contains "urlChange" wait_for);
  if b : bool then
    url ← drv current_url;
    timeout ← lift (py_get wait_for "timeout" (VInt 10000) ≫= py_number);
    drv (until (url_differs_from url) timeout);;
    mret ("Waited for URL change from " +:+ url)
  else wait_default.

Definition wait_event (wait_for : value) : M string :=
  b ← lift (py_contains "event" wait_for);
  if b : bool then
    event_name ← lift (py_getitem wait_for "event");
    timeout ← lift (py_get wait_for "timeout" (VInt 30000) ≫= py_number);
    if py_eq_str event_name "load" then
      drv (until (ready_state_in ["complete"]) timeout);;
      mret "Waited for page load"
    else if py_eq_str event_name "DOMContentLoaded" then
      drv (until (ready_state_in ["interactive"; "complete"]) timeout);;
      mret "Waited for DOM content loaded"
    else wait_url_change wait_for
  else wait_url_change wait_for.

Definition wait_selector (wait_for : value) : M string :=
  b ← lift (py_contains "selector" wait_for);
  if b : bool then
    selector ← lift (py_getitem wait_for "selector");
    state_ ← lift (py_get wait_for "state" (VStr "visible"));
    timeout ← lift (py_get wait_for "timeout" (VInt 10000) ≫= py_number);
    if py_eq_str state_ "visible" then
      '(by_, sel) ← lift (selector_scheme selector);
      drv (until (visibility_of_element_located by_ sel) timeout);;
      mret ("Waited for element " +:+ py_str selector +:+ " to be visible")
    else if py_eq_str state_ "hidden" then
      '(by_, sel) ← lift (selector_scheme selector);
      drv (until (invisibility_of_element_located by_ sel) timeout);;
      mret ("Waited for element " +:+ py_str selector +:+ " to be hidden")
    else if py_eq_str state_ "present" then
      _get_element selector (VInt timeout);;
      mret ("Waited for element " +:+ py_str selector +:+ " to be present")
    else wait_event wait_for
  else wait_event wait_for.

Definition _execute_wait_action (action : value) : M string :=
  wait_for ← lift (py_get action "for" (VDict ∅));
  b ← lift (py_contains "time" wait_for);
  if b : bool then
    t ← lift (py_getitem wait_for "time");
    ms ← lift (py_number t);
    py_sleep ms;;
    mret ("Waited " +:+ py_str t +:+ "ms")
  else wait_selector wait_for.

Definition scroll_into_view : value :=
  VStr "arguments[0].scrollIntoView({block: 'center'});".

Definition _execute_click_action (action : value) : M string :=
  selector ← lift (py_getitem action "selector");
  timeout ← lift (py_get action "timeout" (VInt 10000));
  element ← _get_element selector timeout;
  drv (execute_script scroll_into_view [element]);;
  pause 100 300;;
  offset_x ← sys (random_randint (-5) 5);
  offset_y ← sys (random_randint (-5) 5);
  drv (perform [move_to_element_with_offset element offset_x offset_y;
                click None]);;
  mret ("Clicked element " +:+ py_str selector).

(** [for char in value: actions.send_keys(char); actions.pause(...)] *)
Fixpoint type_chars (chars : list value) (chain : list (chain_step Element))
  : M (list (chain_step Element)) :=
  match chars with
  | [] => mret chain
  | char :: rest =>
      p ← sys (random_uniform 50 150);
      type_chars rest (chain ++ [send_keys (Key char); chain_pause p])
  end.

Definition _execute_type_action (action : value) : M string :=
  selector ← lift (py_getitem action "selector");
  value_ ← lift (py_getitem action "value");
  timeout ← lift (py_get action "timeout" (VInt 10000));
  clear ← lift (py_get action "clear" (VBool true));
  element ← _get_element selector timeout;
  drv (execute_script scroll_into_view [element]);;
  pause 100 200;;
  (if py_truthy clear
   then drv (element_clear element);; pause 50 150
   else mret tt);;
  chars ← lift (py_iter value_);
  chain ← type_chars chars [click (Some element)];
  drv (perform chain);;
  mret ("Typed into " +:+ py_str selector).

Definition _execute_execute_script_action (action : value) : M string :=
  script ← lift (py_getitem action "script");
  result ← drv (execute_script script []);
  mret ("Executed script, result: " +:+ py_str result).

Definition _execute_press_enter_action (action : value) : M string :=
  selector ← lift (py_get action "selector" VNone);
  timeout ← lift (py_get action "timeout" (VInt 10000));
  if py_truthy selector then
    element ← _get_element selector timeout;
    drv (execute_script scroll_into_view [element]);;
    pause 100 200;;
    p ← sys (random_uniform 50 150);
    drv (perform [click (Some element); chain_pause p; send_keys ENTER]);;
    mret ("Pressed Enter on " +:+ py_str selector)
  else
    drv (perform [send_keys ENTER]);;
    mret "Pressed Enter on active element".

(** *** The dispatcher *)

(** The [if]/[elif] chain on [action_type]. *)
Definition dispatch (action action_type : value) : M string :=
  if py_eq_str action_type "wait" then _execute_wait_action action
  else if py_eq_str action_type "click" then _execute_click_action action
  else if py_eq_str action_type "type" then _execute_type_action action
  else if py_eq_str action_type "press_enter" then _execute_press_enter_action action
  else if py_eq_str action_type "execute_script" then _execute_execute_script_action action
  else raise (mk_exn ValueError ("Unknown action type: " +:+ py_str action_type)).

(** The body of the [try] of [_execute_single_action]. *)
Definition single_action_try (action action_type selector : value)
    (index start_time : Z) : M ActionResult :=
  condition ← lift (py_get action "condition" VNone);
  met ← _evaluate_condition condition;
  if negb met then
    now ← sys time_time;
    mret {| index := index; type := action_type; status := "skipped";
            duration := now - start_time;
            message := "Condition not met for " +:+ py_str action_type +:+ " action";
            selector := selector; error := None |}
  else
    message ← dispatch action action_type;
    wait_after ← lift (py_get action "waitAfter" (VInt 0));
    positive ← lift (py_gt_zero wait_after);
    (if positive : bool
     then n ← lift (py_number wait_after); py_sleep n
     else mret tt);;
    now ← sys time_time;
    mret {| index := index; type := action_type; status := "success";
            duration := now - start_time;
            message := message;
            selector := selector; error := None |}.

(** The [except Exception as e] handler of [_execute_single_action]. *)
Definition single_action_except (action_type selector : value)
    (index start_time : Z) (e : exn) : M ActionResult :=
  now ← sys time_time;
  let error_msg := exn_str e in
  sys (logging WARNING
         ("Action " +:+ py_str (VInt index) +:+ " (" +:+ py_str action_type
          +:+ ") failed: " +:+ error_msg));;
  mret {| index := index; type := action_type; status := "failed";
          duration := now - start_time;
          message := "Action failed: " +:+ error_msg;
          selector := selector; error := Some error_msg |}.

Definition _execute_single_action (action : value) (index : Z) : M ActionResult :=
  start_time ← sys time_time;
  action_type ← lift (py_get action "type" VNone);
  selector ← lift (py_get action "selector" VNone);
  try_except
    (single_action_try action action_type selector index start_time)
    (single_action_except action_type selector index start_time).

(** *** The group executor *)

(** [ActionResult(index=..., action_type=step.get('type', 'unknown'),
    status='skipped', message=..., selector=step.get('selector'))]; the
    duration is the constructor's default. *)
Definition skipped_result (index : Z) (step : value) (message : string)
  : outcome ActionResult :=
  action_type ← py_get step "type" (VStr "unknown");
  selector ← py_get step "selector" VNone;
  mret {| index := index; type := action_type; status := "skipped";
          duration := 0; message := message;
          selector := selector; error := None |}.

(** [for i, step in enumerate(steps)] of the branch that skips the group *)
Fixpoint skip_group (base_index : Z) (i : nat) (rest : list value)
    (results : list ActionResult) : outcome (list ActionResult) :=
  match rest with
  | [] => mret results
  | step :: rest' =>
      result ← skipped_result (base_index + Z.of_nat i) step "Group condition not met";
      skip_group base_index (S i) rest' (results ++ [result])
  end.

(** [for j in range(i + 1, len(steps))] after a failure that stops the group *)
Fixpoint skip_remaining (steps : value) (base_index : Z) (js : list nat)
    (results : list ActionResult) : outcome (list ActionResult) :=
  match js with
  | [] => mret results
  | j :: js' =>
      step ← py_index steps j;
      skipped ← skipped_result (base_index + Z.of_nat j) step
                  "Skipped due to previous failure";
      skip_remaining steps base_index js' (results ++ [skipped])
  end.

(** [for i, step in enumerate(steps)] of the branch that executes the
    group; [rest] is what the iteration has not reached yet. *)
Fixpoint group_loop (steps continue_on_group_error : value) (base_index : Z)
    (i : nat) (rest : list value) (results : list ActionResult)
  : M (list ActionResult) :=
  match rest with
  | [] => mret results
  | step :: rest' =>
      result ← _execute_single_action step (base_index + Z.of_nat i);
      let results := results ++ [result] in
      if bool_decide (status result = "failed") then
        continue_on_error ←
          lift (py_get step "continueOnError" continue_on_group_error);
        if negb (py_truthy continue_on_error) then
          n ← lift (py_len steps);
          lift (skip_remaining steps base_index (seq (S i) (n - S i)) results)
        else
          pause 100 300;;
          group_loop steps continue_on_group_error base_index (S i) rest' results
      else
        pause 100 300;;
        group_loop steps continue_on_group_error base_index (S i) rest' results
  end.

Definition _execute_action_group (action_group : value) (base_index : Z)
  : M (list ActionResult * nat) :=
  group_condition ← lift (py_get action_group "condition" VNone);
  met ← (if py_truthy group_condition
         then _evaluate_condition group_condition
         else mret true);
  if negb met then
    steps ← lift (py_get action_group "steps" (VList []));
    items ← lift (py_iter steps);
    results ← lift (skip_group base_index 0 items []);
    n ← lift (py_len steps);
    mret (results, n)
  else
    steps ← lift (py_get action_group "steps" (VList []));
    continue_on_group_error ←
      lift (py_get action_group "continueOnError" (VBool false));
    items ← lift (py_iter steps);
    results ← group_loop steps continue_on_group_error base_index 0 items [];
    n ← lift (py_len steps);
    mret (results, n).

(** *** The run coordinator *)

(** [for action in actions] of [execute_actions]; [rest] is what the
    iteration has not reached yet. *)
Fixpoint actions_loop (rest : list value) (results : ActionExecutionResults)
    (current_index : Z) : M ActionExecutionResults :=
  match rest with
  | [] => mret results
  | action :: rest' =>
      is_group ← lift (py_contains "steps" action);
      if is_group : bool then
        '(group_results, steps_count) ← _execute_action_group action current_index;
        actions_loop rest' (foldl add_result results group_results)
                     (current_index + Z.of_nat steps_count)
      else
        result ← _execute_single_action action current_index;
        let results := add_result results result in
        let current_index := current_index + 1 in
        if bool_decide (status result = "failed") then
          continue_on_error ← lift (py_get action "continueOnError" (VBool false));
          if negb (py_truthy continue_on_error) then
            sys (logging ERROR
                   ("Stopping action execution due to failure at index "
                    +:+ py_str (VInt (index result))));;
            mret results
          else
            pause 100 300;; actions_loop rest' results current_index
        else
          pause 100 300;; actions_loop rest' results current_index
  end.

Definition execute_actions (actions : list value) : M ActionExecutionResults :=
  actions_loop actions new_results 0.

(** [ActionExecutionResults.summary] *)
Definition summary (self : ActionExecutionResults) : string :=
  py_str (VInt (executed self)) +:+ " executed, "
  +:+ py_str (VInt (successful self)) +:+ " successful, "
  +:+ py_str (VInt (failed self)) +:+ " failed, "
  +:+ py_str (VInt (skipped self)) +:+ " skipped".

(** The body of the [try] that guards a text-matches or a custom-script
    predicate [d]: the branch [_evaluate_condition] takes for [d], and what
    it runs under [try ... except Exception: return False]. *)
Inductive guarded_try (d : gmap string value) : M bool → Prop :=
| guarded_text_matches (payload : gmap string value) :
    Forall (λ k, d !! k = None) (take 4 recognized_keys) →
    d !! "ifTextMatches" = Some (VDict payload) →
    guarded_try d (text_matches_try (default VNone (payload !! "selector"))
                                    (default VNone (payload !! "pattern")))
| guarded_custom_script (script : value) :
    Forall (λ k, d !! k = None) (take 6 recognized_keys) →
    d !! "ifCustom" = Some script →
    guarded_try d (custom_try (VDict d)).
End Engine.

(** ** A scripted environment

    A deterministic stand-in for the browser, used to run the engine on
    concrete action lists.  The world is the clock in milliseconds; an
    element is the selector that found it; only ["#present"] is on the page;
    the script ["throw"] raises and ["return true"] is truthy. *)

Definition scripted_sys {X} (op : sys_op X) (w : Z) : X * Z :=
  match op in sys_op X return X * Z with
  | time_time => (w, w)
  | time_sleep ms => (tt, w + ms)
  | random_uniform lo hi => (lo, w)
  | random_randint lo hi => (lo, w)
  | logging _ _ => (tt, w)
  end.

Definition on_page (sel : string) : bool := bool_decide (sel = "#present").

Definition scripted_driver {X} (op : driver_op string X) (w : Z) : outcome X * Z :=
  match op in driver_op _ X return outcome X * Z with
  | find_elements _ sel => (Ok (if on_page sel then [sel] else []), w)
  | find_element _ sel =>
      (if on_page sel then Ok sel
       else Raise (mk_exn NoSuchElementException "no such element"), w)
  | is_displayed _ => (Ok true, w)
  | element_text e => (Ok e, w)
  | element_clear _ => (Ok tt, w)
  | current_url => (Ok "about:blank", w)
  | execute_script script _ =>
      (if py_eq_str script "throw"
       then Raise (mk_exn WebDriverException "javascript error")
       else if py_eq_str script "return true" then Ok (VBool true)
       else Ok VNone, w)
  | until_presence _ sel timeout =>
      if on_page sel then (Ok sel, w)
      else (Raise (mk_exn TimeoutException "timed out"), w + timeout)
  | until _ _ => (Ok tt, w)
  | perform _ => (Ok tt, w)
  end.

Definition scripted_re_search (pattern : value) (text : string) : outcome bool :=
  match pattern with
  | VStr p => Ok (substringb p text)
  | _ => type_error "first argument must be string or compiled pattern"
  end.

Definition scripted_str (v : value) : string :=
  match v with
  | VNone => "None"
  | VBool b => if b then "True" else "False"
  | VInt z => pretty z
  | VStr s => s
  | VList _ => "[...]"
  | VDict _ => "{...}"
  end.

#[global] Instance scripted : Environment Z string := {|
  sys_call := @scripted_sys;
  driver_call := @scripted_driver;
  re_search := scripted_re_search;
  py_str := scripted_str;
  exn_str := exn_arg;
  sleep_limit := 9223372036854;
  sleep_overflow := "timestamp too large to convert to C _PyTime_t";
  random_uniform_range := λ lo hi w Hle, conj (Z.le_refl lo) Hle;
  sleep_limit_half_second := ltac:(done)
|}.

(** The state a scripted run starts in: clock at zero, nothing called yet. *)
Definition start : state (World := Z) (Element := string) :=
  {| world := 0; trace := [] |}.

(** [{k1: v1, ...}] *)
Definition dict (items : list (string * value)) : value :=
  VDict (list_to_map items).

(** ** Measures used in the statements *)

(** The number of results with a given status. *)
Definition count_status (st : string) (results : list ActionResult) : Z :=
  Z.of_nat (length (filter (λ r, status r = st) results)).

(** The counters agree with the recorded results. *)
Definition counters_agree (R : ActionExecutionResults) : Prop :=
  executed R = successful R + failed R
  ∧ successful R = count_status "success" (details R)
  ∧ failed R = count_status "failed" (details R)
  ∧ skipped R = count_status "skipped" (details R).

(** The action types [_execute_single_action] has an executor for. *)
Definition known_types : list string :=
  ["wait"; "click"; "type"; "press_enter"; "execute_script"].

(** The record both skip loops of [_execute_action_group] build for a step
    dictionary. *)
Definition skipped_record (idx : Z) (step : gmap string value) (msg : string)
  : ActionResult :=
  {| index := idx; type := default (VStr "unknown") (step !! "type");
     status := "skipped"; duration := 0; message := msg;
     selector := default VNone (step !! "selector"); error := None |}.

(** The results carry the indices [b], [b + 1], ... in order. *)
Definition indexed_from (b : Z) (results : list ActionResult) : Prop :=
  ∀ k r, results !! k = Some r → index r = b + Z.of_nat k.

(** The number of steps a top-level entry declares: [len(steps)] for a
    group, one for a single action. *)
Definition declared_steps (entry : value) : nat :=
  match py_contains "steps" entry with
  | Ok true =>
      match py_get entry "steps" (VList []) ≫= py_len with
      | Ok n => n
      | Raise _ => 0%nat
      end
  | _ => 1%nat
  end.

(** The total number of declared steps of a list of entries, groups
    flattened. *)
Definition total_declared (actions : list value) : nat :=
  sum_list_with declared_steps actions.

(** The single top-level action [a], which follows the entries [pre], stops
    the run that returned [R]: it was reached and its result, the one at the
    position after the declared steps of [pre], is failed, and its
    continueOnError (default false) is falsy. *)
Definition stops_run (R : ActionExecutionResults) (pre : list value)
    (a : gmap string value) : Prop :=
  a !! "steps" = None
  ∧ py_truthy (default (VBool false) (a !! "continueOnError")) = false
  ∧ ∃ r, details R !! total_declared pre = Some r ∧ status r = "failed".

(** The statuses the engine produces. *)
Definition known_status (r : ActionResult) : Prop :=
  status r = "success" ∨ status r = "failed" ∨ status r = "skipped".

(** An entry whose own errors cannot end a run: a single action, or a group
    of step dictionaries without a condition of its own. *)
Definition plain_entry (entry : value) : Prop :=
  ∃ a : gmap string value,
    entry = VDict a
    ∧ (a !! "steps" = None
       ∨ (py_truthy (default VNone (a !! "condition")) = false
          ∧ ∃ ds : list (gmap string value), a !! "steps" = Some (VList (VDict <$> ds)))).

(** A result as the engine makes them: one of the three statuses, with an
    error exactly when failed. *)
Definition well_formed_result (r : ActionResult) : Prop :=
  known_status r ∧ (status r = "failed" ↔ is_Some (error r)).

(** What [to_dict] keeps of an optional field: the value when it is truthy. *)
Definition shown (v : value) : option value :=
  if py_truthy v then Some v else None.

(** ** Example inputs *)

(** A custom-script condition whose script raises in the scripted driver. *)
Definition throwing_condition : gmap string value :=
  list_to_map [("ifCustom", VStr "throw")].

(** An action whose type has no executor. *)
Definition bogus_action : gmap string value :=
  list_to_map [("type", VStr "bogus")].

(** A click on an element that is not on the scripted page. *)
Definition click_btn : gmap string value :=
  list_to_map [("type", VStr "click"); ("selector", VStr ".btn")].

(** A script action, which succeeds. *)
Definition run_script : gmap string value :=
  list_to_map [("type", VStr "execute_script"); ("script", VStr "return 1")].

(** The second example of the specification: a group gated by
    [ifNotExists(".modal")], whose first step fails. *)
Definition modal_group : gmap string value :=
  list_to_map [("condition", dict [("ifNotExists", VStr ".modal")]);
               ("steps", VList [VDict click_btn; VDict run_script])].

(** The same steps behind a condition that is false on the scripted page. *)
Definition gated_group : gmap string value :=
  list_to_map [("condition", dict [("ifExists", VStr ".modal")]);
               ("steps", VList (VDict <$> [click_btn; run_script]))].

(** A run over a single action, a group whose first step fails, an action
    of unknown type and one more action. *)
Definition example_run : list value :=
  [VDict run_script; VDict modal_group; VDict bogus_action; VDict run_script].

(** The first example of the specification, on an element that is on the
    scripted page: a click, typing "hi", and a wait of 100 ms. *)
Definition three_steps : list value :=
  [dict [("type", VStr "click"); ("selector", VStr "#present")];
   dict [("type", VStr "type"); ("selector", VStr "#present"); ("value", VStr "hi")];
   dict [("type", VStr "wait"); ("for", dict [("time", VInt 100)])]].

(** A group whose condition is a url-matches predicate without pattern. *)
Definition url_group : value :=
  dict [("condition", dict [("ifUrlMatches", VNone)]); ("steps", VList [])].

(** A step gated by a text-matches predicate whose payload is not a
    dictionary. *)
Definition malformed_gate : value :=
  dict [("type", VStr "execute_script"); ("script", VStr "return 1");
        ("condition", dict [("ifTextMatches", VStr "title")])].

(** A predicate asking that [".modal"] exist, which it does not on the
    scripted page, and the script action gated by it. *)
Definition modal_exists : gmap string value :=
  list_to_map [("ifExists", VStr ".modal")].

Definition gated_script : gmap string value :=
  <["condition" := VDict modal_exists]> run_script.

(** The same predicate on the element that is on the page, and its
    negation. *)
Definition present_exists : gmap string value :=
  list_to_map [("ifExists", VStr "#present")].

Definition present_not_exists : gmap string value :=
  list_to_map [("ifNotExists", VStr "#present")].

(** A url-matches predicate without pattern, and a group gated by it. *)
Definition url_without_pattern : gmap string value :=
  list_to_map [("ifUrlMatches", VNone)].

Definition url_gated_group : gmap string value :=
  list_to_map [("condition", VDict url_without_pattern); ("steps", VList [])].


Definition script_then_bad_wait : gmap string value :=
  <["waitAfter" := VStr "soon"]> run_script.


Definition wait_clickable_target : gmap string value :=
  list_to_map [("selector", VStr ".x"); ("state", VStr "clickable")].

Definition wait_clickable : gmap string value :=
  list_to_map [("type", VStr "wait"); ("for", VDict wait_clickable_target)].

(** Pressing enter with an empty selector. *)
Definition enter_nowhere : gmap string value :=
  list_to_map [("type", VStr "press_enter"); ("selector", VStr "")].

(** A group that continues past failures, and a run that does. *)
Definition continuing_group : gmap string value :=
  list_to_map [("continueOnError", VBool true);
               ("steps", VList (VDict <$> [bogus_action; click_btn]))].

Definition continuing_run : list value :=
  [VDict (<["continueOnError" := VBool true]> bogus_action);
   VDict continuing_group;
   VDict (<["continueOnError" := VBool true]> run_script)].

(** * Theorems *)

(** ** Reasoning about runs *)

Section RunFacts.
Context {World Element : Type} `{!Environment World Element}.
Implicit Types s : state (World := World) (Element := Element).

Lemma bind_Ok {A B} (m : M A) (k : A → M B) s a s1 :
  m s = (Ok a, s1) → (m ≫= k) s = k a s1.
Proof. intros Hm. unfold mbind, M_bind. by rewrite Hm. Qed.

Lemma bind_Raise {A B} (m : M A) (k : A → M B) s e s1 :
  m s = (Raise e, s1) → (m ≫= k) s = (Raise e, s1).
Proof. intros Hm. unfold mbind, M_bind. by rewrite Hm. Qed.

Lemma bind_Ok_inv {A B} (m : M A) (k : A → M B) s b s' :
  (m ≫= k) s = (Ok b, s') →
  ∃ a s1, m s = (Ok a, s1) ∧ k a s1 = (Ok b, s').
Proof.
  unfold mbind, M_bind. destruct (m s) as [[a|e] s1]; [eauto | discriminate].
Qed.

Lemma lift_Ok_inv {A} (o : outcome A) s a s' :
  lift o s = (Ok a, s') → o = Ok a ∧ s' = s.
Proof. unfold lift. by intros [= -> ->]. Qed.

Lemma bind_lift {A B} (o : outcome A) (k : A → M B) s a :
  o = Ok a → (lift o ≫= k) s = k a s.
Proof. by intros ->. Qed.

Lemma try_except_Ok {A} (body : M A) handler s a s1 :
  body s = (Ok a, s1) → try_except body handler s = (Ok a, s1).
Proof. intros Hb. unfold try_except. by rewrite Hb. Qed.

Lemma try_except_Raise {A} (body : M A) handler s e s1 :
  body s = (Raise e, s1) → try_except body handler s = handler e s1.
Proof. intros Hb. unfold try_except. by rewrite Hb. Qed.

Lemma get_present (d : gmap string value) (k : string) (v dflt : value) :
  d !! k = Some v → py_get (VDict d) k dflt = Ok v.
Proof. intros Hk. simpl. by rewrite Hk. Qed.

Lemma ret_Ok_inv {A} (a b : A) s s' :
  mret (M := M) a s = (Ok b, s') → b = a ∧ s' = s.
Proof. unfold mret, M_ret. by intros [= -> ->]. Qed.

(** The pacing pause between steps always returns: [random.uniform] stays
    within its bounds, which are non-negative and at most half a second, so
    [time.sleep] accepts what it is given. *)
Lemma pause_returns (lo hi : Z) s :
  0 ≤ lo → lo ≤ hi → hi ≤ 500 → ∃ s', pause lo hi s = (Ok (), s').
Proof.
  intros Hlo Hle Hhi. unfold pause, sys, mbind, M_bind.
  pose proof (random_uniform_range lo hi (world s) Hle) as Hrange.
  pose proof sleep_limit_half_second as Hlimit.
  destruct (sys_call (random_uniform lo hi) (world s)) as [d w] eqn:Hd.
  simpl in Hrange. unfold py_sleep.
  destruct (sleep_limit <? Z.abs d) eqn:Hbig; [apply Z.ltb_lt in Hbig; lia|].
  destruct (d <? 0) eqn:Hneg; [apply Z.ltb_lt in Hneg; lia|].
  unfold sys. simpl. destruct (sys_call (time_sleep d) w) as [[] w']. eauto.
Qed.

Lemma contains_absent (d : gmap string value) (k : string) :
  d !! k = None → py_contains k (VDict d) = Ok false.
Proof.
  intros Hk. simpl. rewrite bool_decide_eq_false_2; [done|].
  rewrite Hk. by intros [? ?].
Qed.

Lemma contains_present (d : gmap string value) (k : string) (v : value) :
  d !! k = Some v → py_contains k (VDict d) = Ok true.
Proof.
  intros Hk. simpl. rewrite bool_decide_eq_true_2; [done|]. by rewrite Hk.
Qed.

Lemma truthy_nonempty (d : gmap string value) (k : string) (v : value) :
  d !! k = Some v → py_truthy (VDict d) = true.
Proof.
  intros Hk. simpl. rewrite bool_decide_eq_false_2; [done|].
  intros ->. by rewrite lookup_empty in Hk.
Qed.
End RunFacts.

(** Takes apart a hypothesis [(m ≫= k) s = (Ok _, _)], one bind at a time. *)
Ltac run_inv H :=
  let a := fresh "a" in
  let s1 := fresh "s" in
  let Hm := fresh "Hrun" in
  apply bind_Ok_inv in H as (a & s1 & Hm & H).

Ltac lift_inv H :=
  let a := fresh "a" in
  let s1 := fresh "s" in
  let Ho := fresh "Hval" in
  apply bind_Ok_inv in H as (a & s1 & Ho & H);
  apply lift_Ok_inv in Ho as [Ho ->].

Tactic Notation "step_run" hyp(H) "as" ident(a) ident(s1) ident(Hm) :=
  apply bind_Ok_inv in H as (a & s1 & Hm & H).

Tactic Notation "step_lift" hyp(H) "as" ident(a) ident(Ho) :=
  let s1 := fresh "s" in
  apply bind_Ok_inv in H as (a & s1 & Ho & H);
  apply lift_Ok_inv in Ho as [Ho ->].

(** ** The report's counters (C5) *)

Lemma count_status_snoc (st : string) (results : list ActionResult) (r : ActionResult) :
  count_status st (results ++ [r])
  = count_status st results + (if bool_decide (status r = st) then 1 else 0).
Proof.
  unfold count_status. rewrite filter_app, length_app, Nat2Z.inj_add.
  f_equal. rewrite filter_cons, filter_nil.
  case_bool_decide; case_decide; done.
Qed.

Lemma details_add_result (R : ActionExecutionResults) (r : ActionResult) :
  details (add_result R r) = details R ++ [r].
Proof. unfold add_result. by repeat case_bool_decide. Qed.

Lemma details_foldl_add_result (results : list ActionResult) (R : ActionExecutionResults) :
  details (foldl add_result R results) = details R ++ results.
Proof.
  revert R. induction results as [|r results IH]; intros R; simpl.
  - by rewrite app_nil_r.
  - by rewrite IH, details_add_result, <- app_assoc.
Qed.

Lemma add_result_agree (R : ActionExecutionResults) (r : ActionResult) :
  counters_agree R → counters_agree (add_result R r).
Proof.
  intros (He & Hs & Hf & Hk). unfold counters_agree.
  rewrite details_add_result, !count_status_snoc.
  unfold add_result.
  repeat case_bool_decide; simpl; try congruence; lia.
Qed.

Lemma foldl_add_result_agree (results : list ActionResult) (R : ActionExecutionResults) :
  counters_agree R → counters_agree (foldl add_result R results).
Proof.
  revert R. induction results as [|r results IH]; intros R HR; simpl; [done|].
  by apply IH, add_result_agree.
Qed.

(** C5. After any sequence of [add_result] calls on a fresh report, the
    details are the added results in order, [executed = successful + failed],
    and [successful], [failed] and [skipped] are the numbers of recorded
    results with status ['success'], ['failed'] and ['skipped']. *)
Theorem add_result_counters (results : list ActionResult) :
  let R := foldl add_result new_results results in
  details R = results
  ∧ executed R = successful R + failed R
  ∧ successful R = count_status "success" (details R)
  ∧ failed R = count_status "failed" (details R)
  ∧ skipped R = count_status "skipped" (details R).
Proof.
  intros R. split.
  - unfold R. by rewrite details_foldl_add_result.
  - apply (foldl_add_result_agree results new_results).
    by unfold counters_agree, count_status.
Qed.

(** ** The condition evaluator (C9, C8) *)

Section ConditionEvaluator.
Context {World Element : Type} `{!Environment World Element}.
Implicit Types s : state (World := World) (Element := Element).

(** C9. An absent predicate, and a predicate dictionary with none of the
    seven recognized keys, evaluate to true, without touching the driver. *)
Theorem evaluate_condition_permissive (condition : value) s :
  condition = VNone
  ∨ (∃ d, condition = VDict d ∧ Forall (λ k, d !! k = None) recognized_keys) →
  _evaluate_condition condition s = (Ok true, s).
Proof.
  intros [-> | (d & -> & Hkeys)]; [done|].
  unfold _evaluate_condition.
  destruct (py_truthy (VDict d)); [|done]. cbn [negb].
  unfold recognized_keys in Hkeys.
  repeat match goal with
         | H : Forall _ (_ :: _) |- _ => apply Forall_cons in H as [? H]
         end.
  repeat (erewrite bind_lift by (by apply contains_absent); cbv iota).
  done.
Qed.

Lemma guarded_try_evaluate (d : gmap string value) (body : M bool) s :
  guarded_try d body →
  _evaluate_condition (VDict d) s = try_except body (λ _, mret false) s.
Proof.
  intros Hg. unfold _evaluate_condition.
  destruct Hg as [payload Hkeys Hp | script Hkeys Hc]; simpl take in Hkeys;
    repeat match goal with
           | H : Forall _ (_ :: _) |- _ => apply Forall_cons in H as [? H]
           end.
  - rewrite (truthy_nonempty d _ _ Hp). cbn [negb].
    repeat (erewrite bind_lift by (by apply contains_absent); cbv iota).
    erewrite bind_lift by (by eapply contains_present). cbv iota.
    erewrite bind_lift by (simpl; by rewrite Hp). done.
  - rewrite (truthy_nonempty d _ _ Hc). cbn [negb].
    repeat (erewrite bind_lift by (by apply contains_absent); cbv iota).
    erewrite bind_lift by (by eapply contains_present). done.
Qed.

Lemma evaluate_false_truthy (condition : value) s s1 :
  _evaluate_condition condition s = (Ok false, s1) → py_truthy condition = true.
Proof.
  unfold _evaluate_condition. destruct (py_truthy condition); [done|].
  simpl. unfold mret, M_ret. by intros [= ].
Qed.

(** A step whose condition evaluates false is reported skipped. *)
Lemma single_action_condition_false (a : gmap string value) (condition : value)
    (idx : Z) s s1 :
  a !! "condition" = Some condition →
  _evaluate_condition condition (sys time_time s).2 = (Ok false, s1) →
  ∃ r s', _execute_single_action (VDict a) idx s = (Ok r, s')
          ∧ index r = idx ∧ status r = "skipped" ∧ error r = None.
Proof.
  intros Hc Hev. unfold _execute_single_action.
  destruct (sys time_time s) as [o s0] eqn:Ht.
  assert (∃ t0, o = Ok t0) as [t0 ->].
  { unfold sys in Ht. destruct (sys_call time_time (world s)). 
    injection Ht as <- _. eauto. }
  simpl in Hev.
  erewrite bind_Ok by exact Ht.
  erewrite bind_lift by done. erewrite bind_lift by done.
  destruct (sys time_time s1) as [o1 s2] eqn:Ht1.
  assert (∃ t1, o1 = Ok t1) as [t1 ->].
  { unfold sys in Ht1. destruct (sys_call time_time (world s1)).
    injection Ht1 as <- _. eauto. }
  eexists _, s2. split.
  - apply try_except_Ok. unfold single_action_try.
    erewrite bind_lift by (simpl; by rewrite Hc).
    erewrite bind_Ok by exact Hev. cbn [negb].
    erewrite bind_Ok by exact Ht1. reflexivity.
  - done.
Qed.

(** C8. When the guarded body of a text-matches or custom-script
    predicate raises, the evaluator returns false; and a step gated by such
    a predicate is then reported skipped, with no error, not failed. *)
Theorem condition_errors_fail_closed (d : gmap string value) (body : M bool) :
  guarded_try d body →
  (∀ s e s1, body s = (Raise e, s1) →
             _evaluate_condition (VDict d) s = (Ok false, s1))
  ∧ (∀ (a : gmap string value) (idx : Z) s e s1,
       a !! "condition" = Some (VDict d) →
       body (sys time_time s).2 = (Raise e, s1) →
       ∃ r s', _execute_single_action (VDict a) idx s = (Ok r, s')
               ∧ status r = "skipped" ∧ error r = None).
Proof.
  intros Hg.
  assert (Hfalse : ∀ s e s1, body s = (Raise e, s1) →
                             _evaluate_condition (VDict d) s = (Ok false, s1)).
  { intros s e s1 Hb. rewrite (guarded_try_evaluate d body s Hg).
    by erewrite try_except_Raise by exact Hb. }
  split; [exact Hfalse|].
  intros a idx s e s1 Hc Hb.
  destruct (single_action_condition_false a (VDict d) idx s s1 Hc)
    as (r & s' & Hrun & _ & Hst & Herr); eauto.
Qed.
End ConditionEvaluator.

Lemma evaluate_condition_permissive_witness :
  _evaluate_condition (dict [("ifSomethingElse", VStr "x")]) start = (Ok true, start).
Proof.
  apply evaluate_condition_permissive. right. eexists. split; [reflexivity|].
  unfold recognized_keys. repeat constructor.
Defined.

Lemma condition_errors_fail_closed_witness :
  (∃ s1, _evaluate_condition (VDict throwing_condition) start = (Ok false, s1))
  ∧ ∃ r s',
      _execute_single_action
        (VDict (<["condition" := VDict throwing_condition]> run_script)) 0 start
        = (Ok r, s')
      ∧ status r = "skipped" ∧ error r = None.
Proof.
  assert (Hg : guarded_try throwing_condition (custom_try (VDict throwing_condition))).
  { apply (guarded_custom_script throwing_condition (VStr "throw")).
    - repeat constructor.
    - reflexivity. }
  destruct (condition_errors_fail_closed throwing_condition _ Hg) as [Hfalse Hskip].
  split.
  - eexists. eapply Hfalse. vm_compute. reflexivity.
  - eapply Hskip.
    + reflexivity.
    + vm_compute. reflexivity.
Defined.

(** ** The dispatcher (C7) *)

Section Dispatcher.
Context {World Element : Type} `{!Environment World Element}.
Implicit Types s : state (World := World) (Element := Element).

Lemma sys_returns {X} (op : sys_op X) s : ∃ x s', sys op s = (Ok x, s').
Proof. unfold sys. destruct (sys_call op (world s)); eauto. Qed.

Lemma except_returns (action_type selector_ : value) (idx t0 : Z) (e : exn) s :
  ∀ t1 s2, sys time_time s = (Ok t1, s2) →
  ∃ s', single_action_except action_type selector_ idx t0 e s =
          (Ok {| index := idx; type := action_type; status := "failed";
                 duration := t1 - t0;
                 message := "Action failed: " +:+ exn_str e;
                 selector := selector_; error := Some (exn_str e) |}, s').
Proof.
  intros t1 s2 Ht. unfold single_action_except.
  erewrite bind_Ok by exact Ht.
  match goal with
  | |- context [sys (logging ?l ?m)] =>
      destruct (sys_returns (logging l m) s2) as (u & s3 & Hlog)
  end.
  erewrite bind_Ok by exact Hlog. eauto.
Qed.

Lemma single_action_unfold (a : gmap string value) (idx : Z) s t0 s0 :
  sys time_time s = (Ok t0, s0) →
  _execute_single_action (VDict a) idx s =
    try_except
      (single_action_try (VDict a) (default VNone (a !! "type"))
         (default VNone (a !! "selector")) idx t0)
      (single_action_except (default VNone (a !! "type"))
         (default VNone (a !! "selector")) idx t0) s0.
Proof.
  intros Ht. unfold _execute_single_action. by erewrite bind_Ok by exact Ht.
Qed.

Lemma dispatch_unknown (action action_type : value) s :
  Forall (λ known, py_eq_str action_type known = false) known_types →
  dispatch action action_type s =
    (Raise (mk_exn ValueError ("Unknown action type: " +:+ py_str action_type)), s).
Proof.
  unfold known_types. intros Hk.
  repeat match goal with
         | H : Forall _ (_ :: _) |- _ => apply Forall_cons in H as [? H]
         end.
  unfold dispatch.
  repeat match goal with H : py_eq_str _ _ = false |- _ => rewrite H; clear H end.
  done.
Qed.

(** C7. For an action dictionary the dispatcher always returns a result;
    whatever exception the body of its [try] raises - from a condition, an
    executor or the unknown-type branch - comes back as a failed result
    with the error text and the elapsed time; and an action type without
    executor, once its condition is met, raises there and so fails. *)
Theorem single_action_errors_become_failed (a : gmap string value) (idx : Z) s :
  let action_type := default VNone (a !! "type") in
  let selector_ := default VNone (a !! "selector") in
  (∃ r s', _execute_single_action (VDict a) idx s = (Ok r, s'))
  ∧ (∀ t0 s0 e s1 t1 s2,
       sys time_time s = (Ok t0, s0) →
       single_action_try (VDict a) action_type selector_ idx t0 s0 = (Raise e, s1) →
       sys time_time s1 = (Ok t1, s2) →
       ∃ s', _execute_single_action (VDict a) idx s =
               (Ok {| index := idx; type := action_type; status := "failed";
                      duration := t1 - t0;
                      message := "Action failed: " +:+ exn_str e;
                      selector := selector_; error := Some (exn_str e) |}, s'))
  ∧ (∀ t0 s0 s1,
       sys time_time s = (Ok t0, s0) →
       _evaluate_condition (default VNone (a !! "condition")) s0 = (Ok true, s1) →
       Forall (λ known, py_eq_str action_type known = false) known_types →
       single_action_try (VDict a) action_type selector_ idx t0 s0 =
         (Raise (mk_exn ValueError ("Unknown action type: " +:+ py_str action_type)), s1)).
Proof.
  intros action_type selector_. split; [|split].
  - destruct (sys_returns time_time s) as (t0 & s0 & Ht).
    rewrite (single_action_unfold a idx s t0 s0 Ht).
    fold action_type selector_. unfold try_except.
    destruct (single_action_try _ _ _ _ _ s0) as [[r|e] s1]; [eauto|].
    destruct (sys_returns time_time s1) as (t1 & s2 & Ht1).
    destruct (except_returns action_type selector_ idx t0 e s1 t1 s2 Ht1)
      as (s' & Hs'). eauto.
  - intros t0 s0 e s1 t1 s2 Ht Hbody Ht1.
    rewrite (single_action_unfold a idx s t0 s0 Ht).
    fold action_type selector_.
    erewrite try_except_Raise by exact Hbody.
    by apply except_returns with s2.
  - intros t0 s0 s1 Ht Hcond Hk. unfold single_action_try.
    erewrite bind_lift by reflexivity.
    erewrite bind_Ok by exact Hcond. cbn [negb].
    erewrite bind_Raise; [reflexivity|]. by apply dispatch_unknown.
Qed.
End Dispatcher.

Lemma single_action_errors_become_failed_witness :
  ∃ s', _execute_single_action (VDict bogus_action) 7 start =
          (Ok {| index := 7; type := VStr "bogus"; status := "failed";
                 duration := 0;
                 message := "Action failed: Unknown action type: bogus";
                 selector := VNone;
                 error := Some "Unknown action type: bogus" |}, s').
Proof.
  pose proof (single_action_errors_become_failed bogus_action 7 start)
    as (_ & Hfailed & Hunknown).
  set (s0 := mk_state (Element := string) 0 [SysCall time_time]).
  set (e := mk_exn ValueError "Unknown action type: bogus").
  destruct (Hfailed 0 s0 e s0 0 (mk_state 0 [SysCall time_time; SysCall time_time]))
    as [s' Hs'].
  - reflexivity.
  - apply (Hunknown 0 s0 s0).
    + reflexivity.
    + reflexivity.
    + unfold known_types. repeat constructor.
  - reflexivity.
  - exists s'. exact Hs'.
Defined.

(** ** The group executor (C6, C1) *)

Section GroupExecutor.
Context {World Element : Type} `{!Environment World Element}.
Implicit Types s : state (World := World) (Element := Element).

Lemma skipped_result_dict (idx : Z) (step : gmap string value) (msg : string) :
  skipped_result idx (VDict step) msg = Ok (skipped_record idx step msg).
Proof. reflexivity. Qed.

Lemma skipped_result_inv (idx : Z) (v : value) (msg : string) (r : ActionResult) :
  skipped_result idx v msg = Ok r →
  ∃ step, v = VDict step ∧ r = skipped_record idx step msg.
Proof.
  destruct v; try discriminate. rewrite skipped_result_dict.
  intros [= <-]. eauto.
Qed.

Lemma indexed_from_app (b : Z) (l1 l2 : list ActionResult) :
  indexed_from b l1 →
  indexed_from (b + Z.of_nat (length l1)) l2 →
  indexed_from b (l1 ++ l2).
Proof.
  intros H1 H2 k r Hk. apply lookup_app_Some in Hk as [Hk | [Hle Hk]].
  - by apply H1.
  - apply H2 in Hk. lia.
Qed.

(** What the loop that skips a whole group returns. *)
Lemma skip_group_inv (b : Z) (rest : list value) :
  ∀ (i : nat) (acc results : list ActionResult),
    skip_group b i rest acc = Ok results →
    ∃ tail, results = acc ++ tail
      ∧ Forall2 (λ step r, ∃ d, step = VDict d ∧ status r = "skipped"
                                ∧ duration r = 0 ∧ error r = None
                                ∧ message r = "Group condition not met"
                                ∧ type r = default (VStr "unknown") (d !! "type")
                                ∧ selector r = default VNone (d !! "selector"))
                rest tail
      ∧ indexed_from (b + Z.of_nat i) tail.
Proof.
  induction rest as [|step rest IH]; intros i acc results Hrun; simpl in Hrun.
  - injection Hrun as <-. exists []. rewrite app_nil_r.
    split; [done|]. split; [constructor|]. by intros k r Hk.
  - destruct (skipped_result _ step _) as [r|e] eqn:Hr; [|discriminate].
    simpl in Hrun. apply IH in Hrun as (tail & -> & Hall & Hidx).
    apply skipped_result_inv in Hr as (d & -> & ->).
    exists (skipped_record (b + Z.of_nat i) d "Group condition not met" :: tail).
    rewrite <- app_assoc. split; [done|]. split.
    + constructor; [|done]. exists d. done.
    + intros [|k] r Hk; simpl in Hk.
      * injection Hk as <-. simpl. lia.
      * apply Hidx in Hk. lia.
Qed.

(** On step dictionaries the loop that skips a whole group cannot raise. *)
Lemma skip_group_dicts (b : Z) (ds : list (gmap string value)) :
  ∀ (i : nat) (acc : list ActionResult),
    skip_group b i (VDict <$> ds) acc =
      Ok (acc ++ imap (λ k d, skipped_record (b + Z.of_nat (i + k)) d
                                "Group condition not met") ds).
Proof.
  induction ds as [|d ds IH]; intros i acc.
  - by rewrite app_nil_r.
  - rewrite fmap_cons. cbn [skip_group]. rewrite skipped_result_dict.
    cbn [mbind outcome_bind]. rewrite IH, <- app_assoc. simpl.
    rewrite Nat.add_0_r. do 3 f_equal.
    apply imap_ext. intros k d' _. simpl. do 2 f_equal. lia.
Qed.

(** What the loop that skips the rest of a group returns. *)
Lemma skip_remaining_inv (steps : value) (b : Z) (js : list nat) :
  ∀ (acc results : list ActionResult),
    skip_remaining steps b js acc = Ok results →
    ∃ tail, results = acc ++ tail
      ∧ Forall2 (λ j r, ∃ d, py_index steps j = Ok (VDict d)
                   ∧ r = skipped_record (b + Z.of_nat j) d
                           "Skipped due to previous failure")
                js tail.
Proof.
  induction js as [|j js IH]; intros acc results Hrun; simpl in Hrun.
  - injection Hrun as <-. exists []. by rewrite app_nil_r.
  - destruct (py_index steps j) as [step|e] eqn:Hstep; [|discriminate].
    simpl in Hrun.
    destruct (skipped_result _ step _) as [r|e] eqn:Hr; [|discriminate].
    simpl in Hrun. apply IH in Hrun as (tail & -> & Hall).
    apply skipped_result_inv in Hr as (d & -> & ->).
    eexists (_ :: tail). rewrite <- app_assoc. split; [done|].
    constructor; [|done]. eauto.
Qed.

Lemma length_chars_of (t : string) : length (chars_of t) = String.length t.
Proof.
  unfold chars_of. rewrite length_fmap.
  induction t as [|c t IH]; simpl; [done | by rewrite IH].
Qed.

(** [len(steps)] is the number of items the iteration over [steps] visits. *)
Lemma iter_len (steps : value) (items : list value) (n : nat) :
  py_iter steps = Ok items → py_len steps = Ok n → length items = n.
Proof.
  destruct steps; try discriminate; simpl; intros [= <-] [= <-].
  - apply length_chars_of.
  - done.
  - by rewrite !length_fmap, length_map_to_list.
Qed.

(** What the dispatcher returns, when it returns. *)
Lemma single_action_result (v : value) (idx : Z) (r : ActionResult) s s' :
  _execute_single_action v idx s = (Ok r, s') →
  ∃ a, v = VDict a ∧ index r = idx
       ∧ (status r = "success" ∨ status r = "failed" ∨ status r = "skipped").
Proof.
  intros Hrun. unfold _execute_single_action in Hrun.
  run_inv Hrun. lift_inv Hrun.
  destruct v as [| | | | |act]; try discriminate.
  lift_inv Hrun. exists act. split; [done|].
  unfold try_except in Hrun.
  destruct (single_action_try _ _ _ _ _ _) as [[r0|e] s2] eqn:Hbody.
  - injection Hrun as -> ->. unfold single_action_try in Hbody.
    lift_inv Hbody. run_inv Hbody.
    destruct (negb _).
    + run_inv Hbody. apply ret_Ok_inv in Hbody as [-> _]. simpl. auto.
    + do 1 run_inv Hbody. do 2 lift_inv Hbody. do 2 run_inv Hbody.
      apply ret_Ok_inv in Hbody as [-> _]. simpl. auto.
  - unfold single_action_except in Hrun. do 2 run_inv Hrun.
    apply ret_Ok_inv in Hrun as [-> _]. simpl. auto.
Qed.

(** The executing loop only ever appends to the results it was given. *)
Lemma group_loop_prefix (steps cont : value) (b : Z) (rest : list value) :
  ∀ (i : nat) (acc rs : list ActionResult) s s',
    group_loop steps cont b i rest acc s = (Ok rs, s') →
    ∃ tail, rs = acc ++ tail.
Proof.
  induction rest as [|step rest IH]; intros i acc rs s s' Hrun; simpl in Hrun.
  - apply ret_Ok_inv in Hrun as [-> _]. exists []. by rewrite app_nil_r.
  - run_inv Hrun. destruct (bool_decide (status a = "failed")).
    + lift_inv Hrun. destruct (negb (py_truthy a0)).
      * lift_inv Hrun. apply lift_Ok_inv in Hrun as [Hrun _].
        apply skip_remaining_inv in Hrun as (tail & -> & _).
        exists (a :: tail). by rewrite <- app_assoc.
      * run_inv Hrun. apply IH in Hrun as [tail ->].
        exists (a :: tail). by rewrite <- app_assoc.
    + run_inv Hrun. apply IH in Hrun as [tail ->].
      exists (a :: tail). by rewrite <- app_assoc.
Qed.

(** The executing loop returns one result per declared step, indexed in
    declaration order, whether or not it stopped early. *)
Lemma group_loop_inv (steps cont : value) (b : Z) (items : list value) :
  py_iter steps = Ok items →
  ∀ (rest done : list value) (acc rs : list ActionResult) s s',
    items = done ++ rest → length acc = length done → indexed_from b acc →
    group_loop steps cont b (length acc) rest acc s = (Ok rs, s') →
    length rs = length items ∧ indexed_from b rs.
Proof.
  intros Hiter.
  induction rest as [|step rest IH]; intros done acc rs s s' Hitems Hlen Hidx Hrun;
    simpl in Hrun.
  - apply ret_Ok_inv in Hrun as [-> _]. rewrite app_nil_r in Hitems.
    by subst.
  - run_inv Hrun. rename a into r0.
    apply single_action_result in Hrun0 as (d0 & -> & Hi0 & _).
    assert (Hidx' : indexed_from b (acc ++ [r0])).
    { apply indexed_from_app; [done|]. intros [|k] r Hk; [|done].
      injection Hk as <-. lia. }
    assert (Hlen' : length (acc ++ [r0]) = length (done ++ [VDict d0])).
    { rewrite !length_app. simpl. lia. }
    assert (Hitems' : items = (done ++ [VDict d0]) ++ rest).
    { by rewrite <- app_assoc. }
    assert (Hnext : ∀ s2, group_loop steps cont b (S (length acc)) rest (acc ++ [r0]) s2
                          = (Ok rs, s') → length rs = length items ∧ indexed_from b rs).
    { intros s2 Hloop. apply (IH (done ++ [VDict d0]) (acc ++ [r0]) rs s2 s'); try done.
      replace (length (acc ++ [r0])) with (S (length acc)); [done|].
      rewrite length_app. simpl. lia. }
    destruct (bool_decide (status r0 = "failed")).
    + lift_inv Hrun. destruct (negb (py_truthy a)).
      * lift_inv Hrun. rename a0 into n. apply lift_Ok_inv in Hrun as [Hrun _].
        apply (iter_len _ _ _ Hiter) in Hval0.
        apply skip_remaining_inv in Hrun as (tail & -> & Hall).
        pose proof (Forall2_length _ _ _ Hall) as Htl. rewrite length_seq in Htl.
        assert (length items = S (length acc) + length rest)%nat as Hn.
        { rewrite Hitems, length_app. simpl. lia. }
        split.
        -- rewrite !length_app. simpl. lia.
        -- apply indexed_from_app; [done|].
           intros k r Hk.
           destruct (Forall2_lookup_r _ _ _ _ _ Hall Hk) as (j & Hj & d & _ & ->).
           apply lookup_seq in Hj as [-> _].
           rewrite length_app. simpl. lia.
      * run_inv Hrun. by apply Hnext in Hrun.
    + run_inv Hrun. by apply Hnext in Hrun.
Qed.

(** C6. When the group's condition is present and evaluates false, the
    group returns one skipped result of duration 0 per declared step, indexed
    from [base_index], with the declared count; and the state it ends in is
    the one the condition's evaluation left: nothing ran for the steps. *)
Theorem group_condition_false_skips_all (g : gmap string value)
    (condition : value) (ds : list (gmap string value)) (base_index : Z) s sc :
  g !! "condition" = Some condition →
  _evaluate_condition condition s = (Ok false, sc) →
  g !! "steps" = Some (VList (VDict <$> ds)) →
  ∃ results,
    _execute_action_group (VDict g) base_index s = (Ok (results, length ds), sc)
    ∧ length results = length ds
    ∧ Forall (λ r, status r = "skipped" ∧ duration r = 0) results
    ∧ ∀ i d, ds !! i = Some d →
        results !! i = Some (skipped_record (base_index + Z.of_nat i) d
                               "Group condition not met").
Proof.
  intros Hc Hev Hsteps.
  exists (imap (λ k d, skipped_record (base_index + Z.of_nat k) d
                         "Group condition not met") ds).
  split; [|split; [|split]].
  - unfold _execute_action_group.
    erewrite bind_lift by (by apply get_present).
    rewrite (evaluate_false_truthy _ _ _ Hev).
    erewrite bind_Ok by exact Hev. cbn [negb].
    erewrite bind_lift by (by apply get_present).
    erewrite bind_lift by reflexivity.
    erewrite bind_lift by apply skip_group_dicts.
    erewrite bind_lift by reflexivity.
    by rewrite length_fmap.
  - by rewrite length_imap.
  - apply Forall_forall. intros r Hr.
    apply list_elem_of_lookup in Hr as [k Hk].
    rewrite list_lookup_imap in Hk.
    destruct (ds !! k); [|done]. by injection Hk as <-.
  - intros i d Hd. by rewrite list_lookup_imap, Hd.
Qed.

Lemma index_list (items : list value) (j : nat) (x : value) :
  py_index (VList items) j = Ok x ↔ items !! j = Some x.
Proof.
  simpl. destruct (items !! j); split; intros Hx; by inversion Hx.
Qed.

(** The heart of C1: once the step at position [p] has failed and may not
    be continued past, the loop ends in the state that step left, the later
    positions hold propagated skips, and the run is, result for result and
    call for call, the run of the group cut off after position [p]. *)
Lemma group_loop_stops (items : list value) (cont : value) (b : Z) (p : nat)
    (step v : value) :
  items !! p = Some step →
  py_get step "continueOnError" cont = Ok v → py_truthy v = false →
  ∀ (rest done : list value) (acc rs : list ActionResult) s s' r,
    items = done ++ rest → length acc = length done → (length acc ≤ p)%nat →
    group_loop (VList items) cont b (length acc) rest acc s = (Ok rs, s') →
    rs !! p = Some r → status r = "failed" →
    (∃ s1, _execute_single_action step (b + Z.of_nat p) s1 = (Ok r, s'))
    ∧ Forall2 (λ j rj, ∃ d, items !! j = Some (VDict d)
                 ∧ rj = skipped_record (b + Z.of_nat j) d
                          "Skipped due to previous failure")
        (seq (S p) (length items - S p)) (drop (S p) rs)
    ∧ group_loop (VList (take (S p) items)) cont b (length acc)
        (take (S p - length acc) rest) acc s = (Ok (take (S p) rs), s').
Proof.
  intros Hstep Hcont Hfalsy.
  induction rest as [|step0 rest IH];
    intros done acc rs s s' r Hitems Hlen Hle Hrun Hr Hfailed.
  - rewrite app_nil_r in Hitems. subst done.
    apply lookup_lt_Some in Hstep. lia.
  - simpl in Hrun. run_inv Hrun. rename a into r0, s0 into s1, Hrun0 into Hr0.
    assert (Hi : items !! length acc = Some step0).
    { rewrite Hitems, Hlen. apply list_lookup_middle. done. }
    assert (Hlen1 : length (acc ++ [r0]) = S (length acc)).
    { rewrite length_app. simpl. lia. }
    assert (Hnext : ∀ s2,
      pause 100 300 s1 = (Ok (), s2) →
      group_loop (VList items) cont b (S (length acc)) rest (acc ++ [r0]) s2 = (Ok rs, s') →
      (bool_decide (status r0 = "failed") = false
       ∨ ∃ v0, py_get step0 "continueOnError" cont = Ok v0 ∧ py_truthy v0 = true) →
      (∃ s1, _execute_single_action step (b + Z.of_nat p) s1 = (Ok r, s'))
      ∧ Forall2 (λ j rj, ∃ d, items !! j = Some (VDict d)
                   ∧ rj = skipped_record (b + Z.of_nat j) d
                            "Skipped due to previous failure")
          (seq (S p) (length items - S p)) (drop (S p) rs)
      ∧ group_loop (VList (take (S p) items)) cont b (S (length acc))
          (take (S p - S (length acc)) rest) (acc ++ [r0]) s2 = (Ok (take (S p) rs), s')).
    { intros s2 Hpause Hloop Hbranch.
      destruct (decide (p = length acc)) as [->|Hne].
      - exfalso. apply group_loop_prefix in Hloop as [tail ->].
        rewrite lookup_app_l in Hr by lia.
        rewrite lookup_app_r in Hr by lia.
        rewrite Nat.sub_diag in Hr. injection Hr as ->.
        rewrite Hi in Hstep. injection Hstep as ->.
        destruct Hbranch as [Hnf | (v0 & Hv0 & Ht0)].
        + by rewrite bool_decide_eq_true_2 in Hnf.
        + congruence.
      - rewrite <- Hlen1 in Hloop |- *.
        apply (IH (done ++ [step0]) (acc ++ [r0]) rs s2 s' r); try done.
        + by rewrite <- app_assoc.
        + rewrite !length_app. simpl. lia.
        + lia. }
    assert (Htake : take (S p - length acc) (step0 :: rest)
                    = step0 :: take (S p - S (length acc)) rest).
    { replace (S p - length acc)%nat with (S (S p - S (length acc))) by lia. done. }
    rewrite Htake. cbn [group_loop].
    erewrite bind_Ok by exact Hr0. cbv zeta.
    destruct (bool_decide (status r0 = "failed")) eqn:Hf.
    + lift_inv Hrun. rename a into v0, Hval into Hv0.
      erewrite bind_lift by exact Hv0.
      destruct (py_truthy v0) eqn:Ht0; cbn [negb] in Hrun |- *.
      * run_inv Hrun. destruct a.
        erewrite bind_Ok by exact Hrun0. apply (Hnext s0); eauto.
      * lift_inv Hrun. apply lift_Ok_inv in Hrun as [Hrun ->].
        injection Hval as <-.
        apply skip_remaining_inv in Hrun as (tail & -> & Hall).
        destruct (decide (p = length acc)) as [->|Hne].
        -- rewrite Hi in Hstep. injection Hstep as ->.
           rewrite lookup_app_l in Hr by lia.
           rewrite lookup_app_r in Hr by lia.
           rewrite Nat.sub_diag in Hr. injection Hr as ->.
           split; [eauto|]. split.
           ++ rewrite drop_app_length' by done.
              eapply Forall2_impl; [exact Hall|].
              intros j rj (d & Hd & ->). exists d. split; [|done].
              by apply index_list.
           ++ erewrite bind_lift by reflexivity.
              assert (length (take (S (length acc)) items) = S (length acc)) as ->.
              { apply lookup_lt_Some in Hi. rewrite length_take. lia. }
              rewrite Nat.sub_diag. simpl.
              by rewrite take_app_length' by done.
        -- exfalso.
           rewrite lookup_app_r in Hr by lia.
           destruct (Forall2_lookup_r _ _ _ _ _ Hall Hr) as (j & _ & d & _ & ->).
           discriminate.
    + run_inv Hrun. destruct a.
      erewrite bind_Ok by exact Hrun0. apply (Hnext s0); eauto.
Qed.

(** C1. When the step at position [i] of a group has a failed result and
    its effective continue-on-error (its own, else the group's, else false)
    is falsy, then the group's condition was absent or true, the group
    returns one result per declared step with the declared count, every later
    position holds a skipped result saying "Skipped due to previous failure",
    the final state is the one in which step [i]'s dispatch returned, and the
    whole run coincides with the run of the group cut off after position [i]:
    nothing was evaluated or executed for the later positions. *)
Theorem failure_skips_rest_of_group (g : gmap string value) (items : list value)
    (base_index : Z) (i : nat) (step v : value) (r : ActionResult)
    (results : list ActionResult) (n : nat) s s' :
  g !! "steps" = Some (VList items) →
  _execute_action_group (VDict g) base_index s = (Ok (results, n), s') →
  items !! i = Some step →
  results !! i = Some r →
  status r = "failed" →
  py_get step "continueOnError" (default (VBool false) (g !! "continueOnError")) = Ok v →
  py_truthy v = false →
  (py_truthy (default VNone (g !! "condition")) = false
   ∨ ∃ sc, _evaluate_condition (default VNone (g !! "condition")) s = (Ok true, sc))
  ∧ n = length items
  ∧ length results = length items
  ∧ (∀ j stepj, (i < j)%nat → items !! j = Some stepj →
       ∃ d, stepj = VDict d
            ∧ results !! j = Some (skipped_record (base_index + Z.of_nat j) d
                                     "Skipped due to previous failure"))
  ∧ (∃ s1, _execute_single_action step (base_index + Z.of_nat i) s1 = (Ok r, s'))
  ∧ _execute_action_group (VDict (<["steps" := VList (take (S i) items)]> g))
      base_index s = (Ok (take (S i) results, S i), s').
Proof.
  intros Hsteps Hrun Hstep Hr Hfailed Hcont Hfalsy.
  unfold _execute_action_group in Hrun.
  lift_inv Hrun. injection Hval as <-.
  run_inv Hrun. rename a into met, s0 into sc, Hrun0 into Hmet.
  destruct met; cbn [negb] in Hrun.
  - lift_inv Hrun. simpl in Hval. rewrite Hsteps in Hval. injection Hval as <-.
    lift_inv Hrun. injection Hval as <-.
    lift_inv Hrun. injection Hval as <-.
    run_inv Hrun. rename a into rs, Hrun0 into Hloop.
    lift_inv Hrun. injection Hval as <-.
    apply ret_Ok_inv in Hrun as [[= -> ->] <-].
    set (cont := default (VBool false) (g !! "continueOnError")) in *.
    destruct (group_loop_inv (VList items) cont base_index items eq_refl
                items [] [] rs sc s') as [Hlen Hidx]; try done.
    destruct (group_loop_stops items cont base_index i step v Hstep Hcont Hfalsy
                items [] [] rs sc s' r) as (Hs1 & Hskips & Hcut);
      try done; [simpl; lia|].
    split; [|split; [done|split; [done|split; [|split; [done|]]]]].
    + destruct (py_truthy (default VNone (g !! "condition"))); [|by left].
      right. eauto.
    + intros j stepj Hij Hj.
      pose proof (lookup_lt_Some _ _ _ Hj) as Hjlt.
      assert (Hseq : seq (S i) (length items - S i) !! (j - S i)%nat = Some j).
      { rewrite lookup_seq_lt by lia. f_equal. lia. }
      destruct (Forall2_lookup_l _ _ _ _ _ Hskips Hseq) as (rj & Hrj & d & Hd & ->).
      rewrite lookup_drop in Hrj.
      replace (S i + (j - S i))%nat with j in Hrj by lia.
      exists d. split; [congruence | done].
    + unfold _execute_action_group.
      erewrite bind_lift
        by (simpl; rewrite lookup_insert_ne by done; reflexivity).
      erewrite bind_Ok by exact Hmet. cbn [negb].
      erewrite bind_lift by (simpl; rewrite lookup_insert_eq; reflexivity).
      erewrite bind_lift
        by (simpl; rewrite lookup_insert_ne by done; reflexivity).
      erewrite bind_lift by reflexivity.
      cbn [length] in Hcut. rewrite Nat.sub_0_r in Hcut.
      erewrite bind_Ok by exact Hcut.
      erewrite bind_lift by reflexivity.
      apply lookup_lt_Some in Hstep.
      rewrite length_take. replace (S i `min` length items)%nat with (S i) by lia.
      done.
  - exfalso.
    lift_inv Hrun. simpl in Hval. rewrite Hsteps in Hval. injection Hval as <-.
    lift_inv Hrun. injection Hval as <-.
    lift_inv Hrun. lift_inv Hrun.
    apply ret_Ok_inv in Hrun as [[= -> ->] <-].
    apply skip_group_inv in Hval as (tail & -> & Hall & _).
    simpl in Hr.
    destruct (Forall2_lookup_r _ _ _ _ _ Hall Hr) as (x & _ & d & _ & Hst & _).
    congruence.
Qed.
End GroupExecutor.

Lemma group_condition_false_skips_all_witness :
  ∃ results sc,
    _execute_action_group (VDict gated_group) 3 start = (Ok (results, 2%nat), sc)
    ∧ Forall (λ r, status r = "skipped" ∧ duration r = 0) results
    ∧ trace sc = [DriverCall (find_elements CSS_SELECTOR ".modal")].
Proof.
  destruct (group_condition_false_skips_all gated_group
              (dict [("ifExists", VStr ".modal")]) [click_btn; run_script] 3 start
              (mk_state 0 [DriverCall (find_elements CSS_SELECTOR ".modal")]))
    as (results & Hrun & _ & Hall & _).
  - reflexivity.
  - reflexivity.
  - reflexivity.
  - exists results. eexists. split; [exact Hrun|]. split; [exact Hall|]. reflexivity.
Defined.

Lemma failure_skips_rest_of_group_witness :
  ∃ results s',
    _execute_action_group (VDict modal_group) 0 start = (Ok (results, 2%nat), s')
    ∧ results !! 1%nat = Some (skipped_record 1 run_script "Skipped due to previous failure")
    ∧ _execute_action_group
        (VDict (<["steps" := VList [VDict click_btn]]> modal_group)) 0 start
      = (Ok (take 1 results, 1%nat), s').
Proof.
  destruct (_execute_action_group (VDict modal_group) 0 start)
    as [[[results n]|e] s'] eqn:Hrun; [|by vm_compute in Hrun].
  assert (Hres : results !! 0%nat = Some
            {| index := 0; type := VStr "click"; status := "failed";
               duration := 10000;
               message := "Action failed: Element not found: .btn";
               selector := VStr ".btn";
               error := Some "Element not found: .btn" |}).
  { vm_compute in Hrun. by injection Hrun as <- _ _. }
  destruct (failure_skips_rest_of_group modal_group
              [VDict click_btn; VDict run_script] 0 0 (VDict click_btn)
              (VBool false) _ results n start s' eq_refl Hrun eq_refl Hres
              eq_refl eq_refl eq_refl)
    as (_ & -> & _ & Hskips & _ & Hcut).
  exists results, s'. split; [done|]. split; [|exact Hcut].
  destruct (Hskips 1%nat (VDict run_script)) as (d & [= <-] & Hd); [lia|done|].
  exact Hd.
Defined.

(** ** The run coordinator (C4, C10, C2, C3) *)

Section RunCoordinator.
Context {World Element : Type} `{!Environment World Element}.
Implicit Types s : state (World := World) (Element := Element).

Lemma total_declared_app (l1 l2 : list value) :
  total_declared (l1 ++ l2) = (total_declared l1 + total_declared l2)%nat.
Proof. apply sum_list_with_app. Qed.

Lemma declared_single (a : gmap string value) :
  a !! "steps" = None → declared_steps (VDict a) = 1%nat.
Proof. intros Ha. unfold declared_steps. by rewrite contains_absent. Qed.

Lemma group_loop_status (steps cont : value) (b : Z) (rest : list value) :
  ∀ (i : nat) (acc rs : list ActionResult) s s',
    group_loop steps cont b i rest acc s = (Ok rs, s') →
    Forall known_status acc → Forall known_status rs.
Proof.
  induction rest as [|step rest IH]; intros i acc rs s s' Hrun Hacc; simpl in Hrun.
  - by apply ret_Ok_inv in Hrun as [-> _].
  - run_inv Hrun. rename a into r0.
    pose proof (single_action_result _ _ _ _ _ Hrun0) as (d0 & _ & _ & Hst).
    assert (Hacc' : Forall known_status (acc ++ [r0])).
    { apply Forall_app. split; [done|]. by constructor. }
    destruct (bool_decide (status r0 = "failed")).
    + lift_inv Hrun. destruct (negb (py_truthy a)).
      * lift_inv Hrun. apply lift_Ok_inv in Hrun as [Hrun _].
        apply skip_remaining_inv in Hrun as (tail & -> & Hall).
        apply Forall_app. split; [done|].
        apply Forall_forall. intros r Hr.
        apply list_elem_of_lookup in Hr as [k Hk].
        destruct (Forall2_lookup_r _ _ _ _ _ Hall Hk) as (j & _ & d & _ & ->).
        right. by right.
      * run_inv Hrun. by apply IH in Hrun.
    + run_inv Hrun. by apply IH in Hrun.
Qed.

(** What the group executor returns, when it returns: the declared count,
    one result per declared step, indexed from the base index. *)
Lemma group_results (g : value) (b : Z) (rs : list ActionResult) (n : nat) s s' :
  _execute_action_group g b s = (Ok (rs, n), s') →
  (∃ steps, py_get g "steps" (VList []) = Ok steps ∧ py_len steps = Ok n)
  ∧ length rs = n ∧ indexed_from b rs ∧ Forall known_status rs.
Proof.
  intros Hrun. unfold _execute_action_group in Hrun.
  step_lift Hrun as cond Hcond. step_run Hrun as met sc Hmet. destruct (negb met).
  - step_lift Hrun as steps Hsteps. step_lift Hrun as items Hiter.
    step_lift Hrun as results Hskip. step_lift Hrun as m Hlen.
    apply ret_Ok_inv in Hrun as [[= -> ->] _].
    apply skip_group_inv in Hskip as (tail & -> & Hall & Hidx).
    pose proof (Forall2_length _ _ _ Hall) as Hlength.
    rewrite (iter_len _ _ _ Hiter Hlen) in Hlength.
    split; [eauto|]. split; [done|]. split.
    + intros k r Hk. apply Hidx in Hk. simpl in Hk. lia.
    + apply Forall_forall. intros r Hr.
      apply list_elem_of_lookup in Hr as [k Hk].
      destruct (Forall2_lookup_r _ _ _ _ _ Hall Hk) as (x & _ & d & _ & Hst & _).
      right. by right.
  - step_lift Hrun as steps Hsteps. step_lift Hrun as cont Hcont.
    step_lift Hrun as items Hiter. step_run Hrun as results s1 Hloop.
    step_lift Hrun as m Hlen.
    apply ret_Ok_inv in Hrun as [[= -> ->] _].
    destruct (group_loop_inv steps cont b items Hiter items [] [] results sc s1)
      as [Hlength Hidx]; try done.
    rewrite (iter_len _ _ _ Hiter Hlen) in Hlength.
    split; [eauto|]. split; [done|]. split; [done|].
    by eapply group_loop_status.
Qed.

Lemma declared_group (g : value) (b : Z) (rs : list ActionResult) (n : nat) s s' :
  py_contains "steps" g = Ok true →
  _execute_action_group g b s = (Ok (rs, n), s') →
  declared_steps g = n.
Proof.
  intros Hin Hrun. apply group_results in Hrun as ((steps & Hs & Hn) & _).
  unfold declared_steps. rewrite Hin, Hs. simpl. by rewrite Hn.
Qed.

Lemma contains_false_absent (v : value) :
  py_contains "steps" v = Ok false → ∀ a, v = VDict a → a !! "steps" = None.
Proof.
  intros Hin a ->. simpl in Hin. injection Hin as Hin.
  apply bool_decide_eq_false in Hin.
  destruct (a !! "steps") eqn:Ha; [|done]. exfalso. apply Hin. eauto.
Qed.

(** The report the loop returns is the report it was given with results
    added by [add_result]. *)
Lemma actions_loop_adds (rest : list value) :
  ∀ (R : ActionExecutionResults) (idx : Z) s R' s',
    actions_loop rest R idx s = (Ok R', s') →
    ∃ tail, R' = foldl add_result R tail.
Proof.
  induction rest as [|entry rest IH]; intros R idx s R' s' Hrun; simpl in Hrun.
  - apply ret_Ok_inv in Hrun as [-> _]. by exists [].
  - step_lift Hrun as is_group Hin. destruct is_group.
    + step_run Hrun as pair s1 Hgroup. destruct pair as [rs n].
      apply IH in Hrun as [tail ->]. exists (rs ++ tail). by rewrite foldl_app.
    + step_run Hrun as r0 s1 Hsingle. cbv zeta in Hrun.
      assert (Hnext : ∀ s2, actions_loop rest (add_result R r0) (idx + 1) s2 = (Ok R', s') →
                            ∃ tail, R' = foldl add_result R tail).
      { intros s2 Hloop. apply IH in Hloop as [tail ->]. by exists (r0 :: tail). }
      destruct (bool_decide (status r0 = "failed")).
      * step_lift Hrun as v Hv. destruct (negb (py_truthy v)).
        -- step_run Hrun as u s2 Hlog. apply ret_Ok_inv in Hrun as [-> _].
           by exists [r0].
        -- step_run Hrun as u s2 Hpause. eauto.
      * step_run Hrun as u s2 Hpause. eauto.
Qed.

Lemma actions_loop_prefix (rest : list value) (R : ActionExecutionResults)
    (idx : Z) s R' s' :
  actions_loop rest R idx s = (Ok R', s') →
  ∃ tail, details R' = details R ++ tail.
Proof.
  intros Hrun. apply actions_loop_adds in Hrun as [tail ->].
  exists tail. apply details_foldl_add_result.
Qed.

(** What a returned report looks like: indexed from zero, made of known
    statuses, and accounting for exactly the entries the loop went through -
    all of them, or those up to a single action that failed and may not be
    continued past. *)
Lemma actions_loop_inv (rest : list value) :
  ∀ (R : ActionExecutionResults) (idx : Z) s R' s',
    actions_loop rest R idx s = (Ok R', s') →
    idx = Z.of_nat (length (details R)) →
    indexed_from 0 (details R) →
    Forall known_status (details R) →
    indexed_from 0 (details R') ∧ Forall known_status (details R')
    ∧ ∃ done todo,
        rest = done ++ todo
        ∧ length (details R') = (length (details R) + total_declared done)%nat
        ∧ (todo = []
           ∨ ∃ pre a r,
               done = pre ++ [VDict a] ∧ a !! "steps" = None
               ∧ last (details R') = Some r ∧ status r = "failed"
               ∧ py_truthy (default (VBool false) (a !! "continueOnError")) = false).
Proof.
  induction rest as [|entry rest IH]; intros R idx s R' s' Hrun Hidx Hind Hst;
    simpl in Hrun.
  - apply ret_Ok_inv in Hrun as [-> _]. split; [done|]. split; [done|].
    exists [], []. split; [done|]. split; [|by left].
    unfold total_declared. simpl. lia.
  - step_lift Hrun as is_group Hin. destruct is_group.
    + step_run Hrun as pair s1 Hgroup. destruct pair as [rs n].
      pose proof (declared_group _ _ _ _ _ _ Hin Hgroup) as Hdecl.
      apply group_results in Hgroup as (_ & Hlen & Hrs & Hknown).
      apply IH in Hrun as (Hind' & Hst' & done & todo & -> & Hlength & Hstop).
      * split; [done|]. split; [done|]. exists (entry :: done), todo.
        split; [done|]. split.
        -- rewrite Hlength, details_foldl_add_result, length_app.
           unfold total_declared. simpl. fold (total_declared done). lia.
        -- destruct Hstop as [->|(pre & a & r & -> & Hrest)]; [by left|].
           right. exists (entry :: pre), a, r. done.
      * rewrite details_foldl_add_result, length_app. lia.
      * rewrite details_foldl_add_result. apply indexed_from_app; [done|].
        by rewrite Z.add_0_l, <- Hidx.
      * rewrite details_foldl_add_result. by apply Forall_app.
    + step_run Hrun as r0 s1 Hsingle. cbv zeta in Hrun.
      apply single_action_result in Hsingle as (a0 & -> & Hi0 & Hst0).
      pose proof (contains_false_absent _ Hin a0 eq_refl) as Hsteps.
      assert (Hnext : ∀ s2,
        actions_loop rest (add_result R r0) (idx + 1) s2 = (Ok R', s') →
        indexed_from 0 (details R') ∧ Forall known_status (details R')
        ∧ ∃ done todo,
            VDict a0 :: rest = done ++ todo
            ∧ length (details R') = (length (details R) + total_declared done)%nat
            ∧ (todo = []
               ∨ ∃ pre a r,
                   done = pre ++ [VDict a] ∧ a !! "steps" = None
                   ∧ last (details R') = Some r ∧ status r = "failed"
                   ∧ py_truthy (default (VBool false) (a !! "continueOnError")) = false)).
      { intros s2 Hloop.
        apply IH in Hloop as (Hind' & Hst' & done & todo & -> & Hlength & Hstop).
        - split; [done|]. split; [done|]. exists (VDict a0 :: done), todo.
          split; [done|]. split.
          + rewrite Hlength, details_add_result, length_app.
            unfold total_declared. simpl. fold (total_declared done).
            rewrite (declared_single a0 Hsteps). lia.
          + destruct Hstop as [->|(pre & a & r & -> & Hrest)]; [by left|].
            right. exists (VDict a0 :: pre), a, r. done.
        - rewrite details_add_result, length_app. simpl. lia.
        - rewrite details_add_result. apply indexed_from_app; [done|].
          intros [|k] r Hk; [|done]. injection Hk as <-. lia.
        - rewrite details_add_result. apply Forall_app. split; [done|].
          by constructor. }
      destruct (bool_decide (status r0 = "failed")) eqn:Hfailed.
      * step_lift Hrun as v Hv. destruct (negb (py_truthy v)) eqn:Hstop.
        -- step_run Hrun as u s2 Hlog. apply ret_Ok_inv in Hrun as [-> _].
           rewrite details_add_result. split; [|split].
           ++ apply indexed_from_app; [done|].
              intros [|k] r Hk; [|done]. injection Hk as <-. lia.
           ++ apply Forall_app. split; [done|]. by constructor.
           ++ exists [VDict a0], rest. split; [done|]. split.
              ** rewrite length_app. unfold total_declared. simpl.
                 rewrite (declared_single a0 Hsteps). lia.
              ** right. exists [], a0, r0. split; [done|]. split; [done|].
                 split; [by rewrite last_snoc|].
                 split; [by apply bool_decide_eq_true in Hfailed|].
                 simpl in Hv. injection Hv as ->.
                 by apply negb_true_iff in Hstop.
        -- step_run Hrun as u s2 Hpause. eauto.
      * step_run Hrun as u s2 Hpause. eauto.
Qed.

(** After a group the loop goes on with the entries that follow, from the
    state the group left, the index advanced by the group's count. *)
Lemma actions_loop_group (g : value) (rest : list value)
    (R : ActionExecutionResults) (idx : Z) (rs : list ActionResult) (n : nat) s s1 :
  py_contains "steps" g = Ok true →
  _execute_action_group g idx s = (Ok (rs, n), s1) →
  actions_loop (g :: rest) R idx s
  = actions_loop rest (foldl add_result R rs) (idx + Z.of_nat n) s1.
Proof.
  intros Hin Hgroup. cbn [actions_loop].
  erewrite bind_lift by exact Hin. cbv iota.
  by erewrite bind_Ok by exact Hgroup.
Qed.

(** When a report holds more results than the entries [pre] declare, the
    loop went through all of [pre] without stopping, and what it does with
    any continuation of [pre] is what it does with that continuation alone,
    started from the report, index and state reached after [pre]. *)
Lemma actions_loop_reach (pre : list value) :
  ∀ (post : list value) (R : ActionExecutionResults) (idx : Z) s R' s',
    actions_loop (pre ++ post) R idx s = (Ok R', s') →
    (length (details R) + total_declared pre < length (details R'))%nat →
    ∃ R1 s1,
      length (details R1) = (length (details R) + total_declared pre)%nat
      ∧ ∀ post2, actions_loop (pre ++ post2) R idx s
                 = actions_loop post2 R1 (idx + Z.of_nat (total_declared pre)) s1.
Proof.
  induction pre as [|entry pre IH]; intros post R idx s R' s' Hrun Hmore.
  - exists R, s. split.
    + unfold total_declared. simpl. lia.
    + intros post2. unfold total_declared. simpl. by rewrite Z.add_0_r.
  - simpl in Hrun. step_lift Hrun as is_group Hin. destruct is_group.
    + step_run Hrun as pair s1 Hgroup. destruct pair as [rs n].
      pose proof (declared_group _ _ _ _ _ _ Hin Hgroup) as Hdecl.
      pose proof (group_results _ _ _ _ _ _ Hgroup) as (_ & Hlen & _).
      assert (Htotal : total_declared (entry :: pre) = (n + total_declared pre)%nat).
      { unfold total_declared. simpl. by rewrite Hdecl. }
      apply IH in Hrun as (R1 & s2 & Hlength & Heq).
      * exists R1, s2. split.
        -- rewrite Hlength, details_foldl_add_result, length_app. lia.
        -- intros post2. rewrite Htotal, <- app_comm_cons.
           rewrite (actions_loop_group _ _ _ _ _ _ _ _ Hin Hgroup).
           rewrite Heq. f_equal. lia.
      * rewrite details_foldl_add_result, length_app. lia.
    + step_run Hrun as r0 s1 Hsingle. cbv zeta in Hrun.
      pose proof (single_action_result _ _ _ _ _ Hsingle) as (a0 & -> & _ & _).
      pose proof (contains_false_absent _ Hin a0 eq_refl) as Hsteps.
      assert (Htotal : total_declared (VDict a0 :: pre) = (1 + total_declared pre)%nat).
      { unfold total_declared. simpl. by rewrite (declared_single a0 Hsteps). }
      assert (Hnext : ∀ s2,
        pause 100 300 s1 = (Ok (), s2) →
        (bool_decide (status r0 = "failed") = false
         ∨ ∃ v, py_get (VDict a0) "continueOnError" (VBool false) = Ok v
                ∧ py_truthy v = true) →
        actions_loop (pre ++ post) (add_result R r0) (idx + 1) s2 = (Ok R', s') →
        ∃ R1 s3,
          length (details R1) = (length (details R) + total_declared (VDict a0 :: pre))%nat
          ∧ ∀ post2, actions_loop ((VDict a0 :: pre) ++ post2) R idx s
                     = actions_loop post2 R1
                         (idx + Z.of_nat (total_declared (VDict a0 :: pre))) s3).
      { intros s2 Hpause Hbranch Hloop.
        apply IH in Hloop as (R1 & s3 & Hlength & Heq).
        - exists R1, s3. split.
          + rewrite Hlength, details_add_result, length_app, Htotal. simpl. lia.
          + intros post2. rewrite Htotal, <- app_comm_cons. cbn [actions_loop].
            erewrite bind_lift by exact Hin. cbv iota.
            erewrite bind_Ok by exact Hsingle. cbv zeta.
            destruct Hbranch as [-> | (v & Hv & Ht)].
            * erewrite bind_Ok by exact Hpause. rewrite Heq. f_equal. lia.
            * destruct (bool_decide (status r0 = "failed")).
              -- erewrite bind_lift by exact Hv. rewrite Ht. cbn [negb].
                 erewrite bind_Ok by exact Hpause. rewrite Heq. f_equal. lia.
              -- erewrite bind_Ok by exact Hpause. rewrite Heq. f_equal. lia.
        - rewrite details_add_result, length_app. cbn [length]. lia. }
      destruct (bool_decide (status r0 = "failed")) eqn:Hfailed.
      * step_lift Hrun as v Hv. destruct (py_truthy v) eqn:Ht; cbn [negb] in Hrun.
        -- step_run Hrun as u s2 Hpause. destruct u.
           apply (Hnext s2 Hpause); [right; eauto | done].
        -- exfalso. step_run Hrun as u s2 Hlog.
           apply ret_Ok_inv in Hrun as [-> _].
           rewrite details_add_result, length_app in Hmore. cbn [length] in Hmore. lia.
      * step_run Hrun as u s2 Hpause. destruct u.
        apply (Hnext s2 Hpause); [by left | done].
Qed.

Lemma indexed_from_fmap (b : Z) (rs : list ActionResult) :
  indexed_from b rs →
  index <$> rs = (λ k, b + Z.of_nat k) <$> seq 0 (length rs).
Proof.
  intros Hidx. apply list_eq. intros k. rewrite !list_lookup_fmap.
  destruct (rs !! k) as [r|] eqn:Hk; simpl.
  - rewrite lookup_seq_lt by (by eapply lookup_lt_Some). simpl.
    f_equal. by apply Hidx.
  - rewrite lookup_seq_ge; [done|]. by apply lookup_ge_None.
Qed.

Lemma count_known (rs : list ActionResult) :
  Forall known_status rs →
  count_status "success" rs + count_status "failed" rs + count_status "skipped" rs
  = Z.of_nat (length rs).
Proof.
  induction rs as [|r rs IH] using rev_ind; intros Hall; [done|].
  apply Forall_app in Hall. destruct Hall as [Hrs Hr].
  apply Forall_inv in Hr. unfold known_status in Hr.
  rewrite !count_status_snoc, length_app. specialize (IH Hrs). simpl.
  destruct Hr as [Hr | [Hr | Hr]]; rewrite Hr; repeat case_bool_decide; try done; lia.
Qed.

Lemma count_positive (st : string) (rs : list ActionResult) (r : ActionResult) :
  r ∈ rs → status r = st → 0 < count_status st rs.
Proof.
  intros Hin Hst. unfold count_status.
  assert (r ∈ filter (λ r, status r = st) rs) as Hf by by apply list_elem_of_filter.
  destruct (filter _ rs); [by apply elem_of_nil in Hf | simpl; lia].
Qed.

(** A returned report: built by [add_result] alone, so its counters agree
    with its details; indexed from zero; and accounting for the entries the
    run went through. *)
Lemma execute_actions_inv (actions : list value) (R : ActionExecutionResults) s s' :
  execute_actions actions s = (Ok R, s') →
  counters_agree R ∧ indexed_from 0 (details R) ∧ Forall known_status (details R)
  ∧ ∃ done todo,
      actions = done ++ todo
      ∧ length (details R) = total_declared done
      ∧ (todo = []
         ∨ ∃ pre a r,
             done = pre ++ [VDict a] ∧ a !! "steps" = None
             ∧ last (details R) = Some r ∧ status r = "failed"
             ∧ py_truthy (default (VBool false) (a !! "continueOnError")) = false).
Proof.
  intros Hrun. unfold execute_actions in Hrun. split.
  - apply actions_loop_adds in Hrun as [tail ->].
    apply foldl_add_result_agree. by unfold counters_agree, count_status.
  - apply actions_loop_inv in Hrun; [|done| |by constructor].
    + destruct Hrun as (Hidx & Hst & done & todo & Hsplit & Hlen & Hstop).
      split; [done|]. split; [done|]. exists done, todo. done.
    + by intros k r Hk.
Qed.

(** C4. In a returned report the indices, in report order, are
    0, 1, 2, ... - so unique, contiguous and increasing; a group returns one
    result per declared step, indexed from its base index, with the declared
    count; and after a group the run goes on with the index advanced by that
    count, whatever the group's results are. *)
Theorem indices_contiguous :
  (∀ (actions : list value) s R s',
     execute_actions actions s = (Ok R, s') →
     index <$> details R = Z.of_nat <$> seq 0 (length (details R))
     ∧ ∀ j k rj rk, (j < k)%nat →
         details R !! j = Some rj → details R !! k = Some rk → index rj < index rk)
  ∧ (∀ (g : value) (base_index : Z) s rs n s',
       _execute_action_group g base_index s = (Ok (rs, n), s') →
       (∃ steps, py_get g "steps" (VList []) = Ok steps ∧ py_len steps = Ok n)
       ∧ length rs = n
       ∧ index <$> rs = (λ k, base_index + Z.of_nat k) <$> seq 0 n)
  ∧ (∀ (g : value) (rest : list value) R idx s rs n s1,
       py_contains "steps" g = Ok true →
       _execute_action_group g idx s = (Ok (rs, n), s1) →
       actions_loop (g :: rest) R idx s
       = actions_loop rest (foldl add_result R rs) (idx + Z.of_nat n) s1).
Proof.
  split; [|split].
  - intros actions s R s' Hrun.
    apply execute_actions_inv in Hrun as (_ & Hidx & _). split.
    + rewrite (indexed_from_fmap 0 _ Hidx). apply list_fmap_ext.
      intros k x _. lia.
    + intros j k rj rk Hjk Hj Hk. apply Hidx in Hj, Hk. lia.
  - intros g base_index s rs n s' Hrun.
    apply group_results in Hrun as (Hsteps & Hlen & Hidx & _).
    split; [done|]. split; [done|]. rewrite <- Hlen. by apply indexed_from_fmap.
  - intros g rest R idx s rs n s1. apply actions_loop_group.
Qed.

(** C10. After a group - whatever its steps did and whatever the
    continueOnError settings - the loop takes up the entries that follow;
    and in a whole run in which the group was reached, the report is the one
    the loop builds from those entries, starting where the group ended. *)
Theorem group_never_stops_run (g : value) (post : list value) :
  py_contains "steps" g = Ok true →
  (∀ R idx s rs n s1,
     _execute_action_group g idx s = (Ok (rs, n), s1) →
     actions_loop (g :: post) R idx s
     = actions_loop post (foldl add_result R rs) (idx + Z.of_nat n) s1)
  ∧ (∀ (pre : list value) s R s',
       execute_actions (pre ++ g :: post) s = (Ok R, s') →
       (total_declared pre < length (details R))%nat →
       ∃ R1 s1 rs n s2,
         length (details R1) = total_declared pre
         ∧ _execute_action_group g (Z.of_nat (total_declared pre)) s1 = (Ok (rs, n), s2)
         ∧ actions_loop post (foldl add_result R1 rs)
             (Z.of_nat (total_declared pre) + Z.of_nat n) s2 = (Ok R, s')).
Proof.
  intros Hin. split.
  - intros R idx s rs n s1. by apply actions_loop_group.
  - intros pre s R s' Hrun Hmore. unfold execute_actions in Hrun.
    destruct (actions_loop_reach pre (g :: post) new_results 0 s R s' Hrun Hmore)
      as (R1 & s1 & Hlen & Heq).
    rewrite Heq in Hrun. cbn [actions_loop] in Hrun.
    step_lift Hrun as is_group Hin'. rewrite Hin in Hin'. injection Hin' as <-.
    step_run Hrun as pair s2 Hgroup. destruct pair as [rs n].
    exists R1, s1, rs, n, s2. rewrite Z.add_0_l in Hgroup, Hrun. done.
Qed.

(** C2. When the single top-level action after [pre] has a failed result
    and its own continueOnError (default false) is falsy, that result is the
    last of the report - nothing is recorded for the entries after it - and
    the run is the run of the list cut off after that action: the same
    report, the same final state, the same calls; it ends with the logging of
    the stop, right after the action's dispatch. *)
Theorem top_level_failure_stops_run (pre : list value) (a : gmap string value)
    (post : list value) (r : ActionResult) s R s' :
  a !! "steps" = None →
  py_truthy (default (VBool false) (a !! "continueOnError")) = false →
  execute_actions (pre ++ VDict a :: post) s = (Ok R, s') →
  details R !! total_declared pre = Some r →
  status r = "failed" →
  length (details R) = S (total_declared pre)
  ∧ last (details R) = Some r
  ∧ execute_actions (pre ++ [VDict a]) s = (Ok R, s')
  ∧ ∃ s1 s2,
      _execute_single_action (VDict a) (Z.of_nat (total_declared pre)) s1 = (Ok r, s2)
      ∧ sys (logging ERROR ("Stopping action execution due to failure at index "
                            +:+ py_str (VInt (index r)))) s2 = (Ok (), s').
Proof.
  intros Hsteps Hfalsy Hrun Hr Hfailed. unfold execute_actions in *.
  pose proof (lookup_lt_Some _ _ _ Hr) as Hmore.
  destruct (actions_loop_reach pre (VDict a :: post) new_results 0 s R s' Hrun Hmore)
    as (R1 & s1 & Hlen & Heq).
  simpl in Hlen. rewrite Heq in Hrun. rewrite (Heq [VDict a]). rewrite Z.add_0_l in *.
  cbn [actions_loop] in Hrun |- *.
  erewrite bind_lift in Hrun by (by apply contains_absent).
  erewrite bind_lift by (by apply contains_absent). cbv iota in Hrun |- *.
  step_run Hrun as r0 s2 Hsingle. cbv zeta in Hrun.
  erewrite bind_Ok by exact Hsingle. cbv zeta.
  destruct (bool_decide (status r0 = "failed")) eqn:Hf.
  - erewrite bind_lift in Hrun by reflexivity.
    erewrite bind_lift by reflexivity.
    rewrite Hfalsy in Hrun |- *. cbn [negb] in Hrun |- *.
    step_run Hrun as u s3 Hlog. destruct u.
    apply ret_Ok_inv in Hrun as [-> <-].
    erewrite bind_Ok by exact Hlog.
    rewrite details_add_result in Hr |- *.
    rewrite lookup_app_r in Hr by lia. rewrite Hlen, Nat.sub_diag in Hr.
    injection Hr as ->.
    split; [rewrite length_app; simpl; lia|]. split; [by rewrite last_snoc|].
    split; [done|]. exists s1, s2. split; [done|]. exact Hlog.
  - exfalso. step_run Hrun as u s3 Hpause.
    apply actions_loop_prefix in Hrun as [tail Htail].
    rewrite Htail, details_add_result in Hr.
    rewrite lookup_app_l in Hr by (rewrite length_app; simpl; lia).
    rewrite lookup_app_r in Hr by lia. rewrite Hlen, Nat.sub_diag in Hr.
    injection Hr as ->. by rewrite bool_decide_eq_true_2 in Hf.
Qed.

(** The run of a list in which a single action stopped the run is the run
    of the list cut off after that action, and the action's result is the last
    of the report. *)
Lemma stopping_action_ends_run (pre : list value) (a : gmap string value)
    (post : list value) (R : ActionExecutionResults) s s' :
  execute_actions (pre ++ VDict a :: post) s = (Ok R, s') →
  stops_run R pre a →
  length (details R) = S (total_declared pre)
  ∧ execute_actions (pre ++ [VDict a]) s = (Ok R, s').
Proof.
  intros Hrun (Hsteps & Hfalsy & r & Hr & Hfailed). unfold execute_actions in *.
  pose proof (lookup_lt_Some _ _ _ Hr) as Hmore.
  destruct (actions_loop_reach pre (VDict a :: post) new_results 0 s R s' Hrun Hmore)
    as (R1 & s1 & Hlen & Heq).
  simpl in Hlen. rewrite Heq in Hrun. rewrite (Heq [VDict a]). rewrite Z.add_0_l in *.
  cbn [actions_loop] in Hrun |- *.
  erewrite bind_lift in Hrun by (by apply contains_absent).
  erewrite bind_lift by (by apply contains_absent). cbv iota in Hrun |- *.
  step_run Hrun as r0 s2 Hsingle. cbv zeta in Hrun.
  erewrite bind_Ok by exact Hsingle. cbv zeta.
  destruct (bool_decide (status r0 = "failed")) eqn:Hf.
  - erewrite bind_lift in Hrun by reflexivity.
    erewrite bind_lift by reflexivity.
    rewrite Hfalsy in Hrun |- *. cbn [negb] in Hrun |- *.
    step_run Hrun as u s3 Hlog. destruct u.
    apply ret_Ok_inv in Hrun as [-> <-].
    erewrite bind_Ok by exact Hlog.
    rewrite details_add_result, length_app. simpl. split; [lia|done].
  - exfalso. step_run Hrun as u s3 Hpause.
    apply actions_loop_prefix in Hrun as [tail Htail].
    rewrite Htail, details_add_result in Hr.
    rewrite lookup_app_l in Hr by (rewrite length_app; simpl; lia).
    rewrite lookup_app_r in Hr by lia. rewrite Hlen, Nat.sub_diag in Hr.
    injection Hr as ->. by rewrite bool_decide_eq_true_2 in Hf.
Qed.

(** C3, as the code has it. In a returned report [executed] is
    [successful + failed] and [executed + skipped] is the number of results.
    Where a single top-level action stops the run - it was reached, failed,
    and its continueOnError is falsy - the report holds exactly one result per
    declared step of the entries up to and including that action and none for
    the entries after it: the run is the run of the list cut off there, no
    position after the action's holds a result, and no earlier action stopped
    the run.  Either some action stops the run, or the report holds one result
    per declared step of the whole list; and a report without failures
    accounts for the whole list. *)
Theorem report_accounts_for_processed_entries (actions : list value)
    (R : ActionExecutionResults) s s' :
  execute_actions actions s = (Ok R, s') →
  executed R = successful R + failed R
  ∧ executed R + skipped R = Z.of_nat (length (details R))
  ∧ (∀ pre a post,
       actions = pre ++ VDict a :: post → stops_run R pre a →
       length (details R) = total_declared (pre ++ [VDict a])
       ∧ execute_actions (pre ++ [VDict a]) s = (Ok R, s')
       ∧ (∀ k, (total_declared pre < k)%nat → details R !! k = None)
       ∧ (∀ pre1 b post1, pre = pre1 ++ VDict b :: post1 → ¬ stops_run R pre1 b))
  ∧ ((∃ pre a post, actions = pre ++ VDict a :: post ∧ stops_run R pre a)
     ∨ length (details R) = total_declared actions)
  ∧ (failed R = 0 → executed R + skipped R = Z.of_nat (total_declared actions)).
Proof.
  intros Hrun.
  pose proof (execute_actions_inv _ _ _ _ Hrun)
    as ((He & Hs & Hf & Hk) & _ & Hknown & done & todo & Hsplit & Hlen & Hstop).
  pose proof (count_known _ Hknown) as Hcount.
  assert (Hcut : ∀ pre a post,
            actions = pre ++ VDict a :: post → stops_run R pre a →
            length (details R) = S (total_declared pre)
            ∧ execute_actions (pre ++ [VDict a]) s = (Ok R, s')).
  { intros pre a post -> Hstops. by eapply stopping_action_ends_run. }
  assert (Hwhole : (∃ pre a post, actions = pre ++ VDict a :: post ∧ stops_run R pre a)
                   ∨ length (details R) = total_declared actions).
  { destruct Hstop as [-> | (pre & a & r & -> & Hsteps & Hlast & Hst & Hfalsy)].
    - right. by rewrite Hsplit, app_nil_r.
    - left. exists pre, a, todo. split; [by rewrite Hsplit, <- app_assoc|].
      split; [done|]. split; [done|]. exists r. split; [|done].
      rewrite total_declared_app in Hlen. unfold total_declared in Hlen at 2.
      simpl in Hlen. rewrite (declared_single a Hsteps) in Hlen.
      rewrite last_lookup in Hlast.
      by replace (total_declared pre) with (pred (length (details R))) by lia. }
  split; [done|]. split; [lia|]. split; [|split; [done|]].
  - intros pre a post Hactions Hstops.
    destruct (Hcut pre a post Hactions Hstops) as [Hlength Hsame].
    split; [|split; [done|split]].
    + rewrite total_declared_app. unfold total_declared at 2. simpl.
      rewrite (declared_single a (proj1 Hstops)). lia.
    + intros k Hlater. apply lookup_ge_None. lia.
    + intros pre1 b post1 -> Hearlier.
      rewrite <- app_assoc, <- app_comm_cons in Hactions.
      destruct (Hcut pre1 b _ Hactions Hearlier) as [Hshort _].
      rewrite total_declared_app in Hlength.
      unfold total_declared in Hlength at 2. simpl in Hlength.
      rewrite (declared_single b (proj1 Hearlier)) in Hlength. lia.
  - intros Hnone. destruct Hwhole as [(pre & a & post & _ & _ & _ & r & Hr & Hst) | Hall];
      [|lia].
    exfalso. apply list_elem_of_lookup_2 in Hr.
    pose proof (count_positive "failed" _ _ Hr Hst). lia.
Qed.
End RunCoordinator.

Lemma indices_contiguous_witness :
  ∃ R s', execute_actions example_run start = (Ok R, s')
          ∧ index <$> details R = [0; 1; 2; 3].
Proof.
  destruct (execute_actions example_run start) as [[R|e] s'] eqn:Hrun;
    [|by vm_compute in Hrun].
  exists R, s'. split; [done|].
  destruct (proj1 indices_contiguous example_run start R s' Hrun) as [-> _].
  vm_compute in Hrun. by injection Hrun as <- _.
Defined.

Lemma group_never_stops_run_witness :
  ∃ rs s1,
    _execute_action_group (VDict modal_group) 0 start = (Ok (rs, 2%nat), s1)
    ∧ (status <$> rs) = ["failed"; "skipped"]
    ∧ actions_loop [VDict modal_group; VDict run_script] new_results 0 start
      = actions_loop [VDict run_script] (foldl add_result new_results rs) (0 + Z.of_nat 2) s1.
Proof.
  destruct (_execute_action_group (VDict modal_group) 0 start)
    as [[[rs n]|e] s1] eqn:Hgroup; [|by vm_compute in Hgroup].
  assert (n = 2%nat) as -> by (vm_compute in Hgroup; by injection Hgroup as _ <- _).
  assert (Hin : py_contains "steps" (VDict modal_group) = Ok true)
    by (vm_compute; reflexivity).
  exists rs, s1. split; [done|]. split.
  - vm_compute in Hgroup. by injection Hgroup as <- _.
  - exact (proj1 (group_never_stops_run (VDict modal_group) [VDict run_script] Hin)
             new_results 0 start rs 2%nat s1 Hgroup).
Defined.

Lemma top_level_failure_stops_run_witness :
  ∃ R s',
    execute_actions [VDict run_script; VDict bogus_action; VDict run_script] start
      = (Ok R, s')
    ∧ length (details R) = 2%nat
    ∧ execute_actions [VDict run_script; VDict bogus_action] start = (Ok R, s').
Proof.
  destruct (execute_actions [VDict run_script; VDict bogus_action; VDict run_script] start)
    as [[R|e] s'] eqn:Hrun; [|by vm_compute in Hrun].
  assert (Hr : details R !! 1%nat = Some
            {| index := 1; type := VStr "bogus"; status := "failed"; duration := 0;
               message := "Action failed: Unknown action type: bogus";
               selector := VNone; error := Some "Unknown action type: bogus" |}).
  { vm_compute in Hrun. by injection Hrun as <- _. }
  destruct (top_level_failure_stops_run [VDict run_script] bogus_action
              [VDict run_script] _ start R s' eq_refl eq_refl Hrun Hr eq_refl)
    as (Hlen & _ & Hcut & _).
  exists R, s'. done.
Defined.

(** C3 as stated fails: after the unknown action type stops the run, the
    second declared step has no result at all. *)
Lemma report_drops_untried_entries :
  ∃ R s',
    execute_actions [VDict bogus_action; VDict run_script] start = (Ok R, s')
    ∧ executed R + skipped R = 1
    ∧ length (details R) = 1%nat
    ∧ total_declared [VDict bogus_action; VDict run_script] = 2%nat.
Proof.
  eexists _, _. split; [vm_compute; reflexivity|]. by vm_compute.
Qed.

Lemma report_accounts_for_processed_entries_witness :
  ∃ R s',
    execute_actions [VDict bogus_action; VDict run_script] start = (Ok R, s')
    ∧ executed R = successful R + failed R
    ∧ length (details R) = 1%nat
    ∧ details R !! 1%nat = None
    ∧ execute_actions [VDict bogus_action] start = (Ok R, s').
Proof.
  destruct (execute_actions [VDict bogus_action; VDict run_script] start)
    as [[R|e] s'] eqn:Hrun; [|by vm_compute in Hrun].
  assert (Hstops : stops_run R [] bogus_action).
  { split; [by vm_compute|]. split; [by vm_compute|].
    pose proof Hrun as Hr. vm_compute in Hr. injection Hr as <- _.
    eexists. split; reflexivity. }
  destruct (report_accounts_for_processed_entries _ R start s' Hrun)
    as (He & _ & Hcut & _).
  destruct (Hcut [] bogus_action [VDict run_script] eq_refl Hstops)
    as (Hlen & Hsame & Hnone & _).
  exists R, s'. split; [done|]. split; [done|]. split; [exact Hlen|].
  split; [apply Hnone; by vm_compute | exact Hsame].
Defined.

(** ** The specification's examples and two boundary cases *)

(** Three steps without failure: three executed, three successful, indices
    0, 1, 2. *)
Example three_steps_succeed :
  ∃ R s', execute_actions three_steps start = (Ok R, s')
          ∧ (executed R, successful R, failed R, skipped R) = (3, 3, 0, 0)
          ∧ index <$> details R = [0; 1; 2].
Proof. eexists _, _. split; [vm_compute; reflexivity|]. by vm_compute. Qed.

(** The condition of a group is evaluated outside any [try]: an error there
    that the evaluator does not swallow ends the run without a report. *)
Example group_condition_error_escapes :
  (execute_actions [url_group] start).1
  = Raise (mk_exn TypeError "first argument must be string or compiled pattern").
Proof. vm_compute. reflexivity. Qed.

(** A malformed text-matches predicate raises before the evaluator's own
    [try]; inside a step the dispatcher turns that into a failed result. *)
Example malformed_gate_fails :
  ∃ r s', _execute_single_action malformed_gate 0 start = (Ok r, s')
          ∧ status r = "failed"
          ∧ error r = Some "'str' object has no attribute 'get'".
Proof. eexists _, _. split; [vm_compute; reflexivity|]. by vm_compute. Qed.

(** * More of the engine *)

(** ** Element queries and the other predicates *)

Section ElementQueries.
Context {World Element : Type} `{!Environment World Element}.
Implicit Types s : state (World := World) (Element := Element).

Lemma drv_eq {X} (op : driver_op Element X) s :
  drv op s = ((driver_call op (world s)).1,
              {| world := (driver_call op (world s)).2;
                 trace := trace s ++ [DriverCall op] |}).
Proof. unfold drv. by destruct (driver_call op (world s)). Qed.

Lemma sys_eq {X} (op : sys_op X) s :
  sys op s = (Ok (sys_call op (world s)).1,
              {| world := (sys_call op (world s)).2;
                 trace := trace s ++ [SysCall op] |}).
Proof. unfold sys. by destruct (sys_call op (world s)). Qed.

Lemma get_present_item (d : gmap string value) (k : string) (v : value) :
  d !! k = Some v → py_getitem (VDict d) k = Ok v.
Proof. intros Hk. simpl. by rewrite Hk. Qed.

Lemma element_exists_returns (selector : value) s :
  ∃ b s', _element_exists selector s = (Ok b, s').
Proof.
  unfold _element_exists, try_except.
  match goal with |- context [match ?m s with _ => _ end] =>
    destruct (m s) as [[b|e] s1] end; eauto.
Qed.

Lemma element_visible_returns (selector : value) s :
  ∃ b s', _element_visible selector s = (Ok b, s').
Proof.
  unfold _element_visible, try_except.
  match goal with |- context [match ?m s with _ => _ end] =>
    destruct (m s) as [[b|e] s1] end; eauto.
Qed.

(** X1. [_element_exists] never raises: it answers False for a selector
    that is not a string, without calling the driver, and False when the
    driver's lookup raises. *)
Theorem element_exists_never_raises (selector : value) s :
  (∃ b s', _element_exists selector s = (Ok b, s'))
  ∧ ((∀ t, selector ≠ VStr t) → _element_exists selector s = (Ok false, s))
  ∧ (∀ by_ sel e w,
       selector_scheme selector = Ok (by_, sel) →
       driver_call (find_elements by_ sel) (world s) = (Raise e, w) →
       _element_exists selector s
       = (Ok false, {| world := w;
                       trace := trace s ++ [DriverCall (find_elements by_ sel)] |})).
Proof.
  split; [apply element_exists_returns|]. split.
  - intros Hns. destruct selector; try reflexivity. by destruct (Hns s0).
  - intros by_ sel e w Hscheme Hdrv. unfold _element_exists.
    erewrite try_except_Raise; [reflexivity|].
    erewrite bind_lift by exact Hscheme. cbv beta iota.
    erewrite bind_Raise; [reflexivity|]. by rewrite drv_eq, Hdrv.
Qed.

(** X2. [_element_visible] never raises: False for a selector that is not
    a string, without calling the driver; False when the element cannot be
    found; False when asking whether it is displayed raises. *)
Theorem element_visible_never_raises (selector : value) s :
  (∃ b s', _element_visible selector s = (Ok b, s'))
  ∧ ((∀ t, selector ≠ VStr t) → _element_visible selector s = (Ok false, s))
  ∧ (∀ by_ sel e w,
       selector_scheme selector = Ok (by_, sel) →
       driver_call (find_element by_ sel) (world s) = (Raise e, w) →
       _element_visible selector s
       = (Ok false, {| world := w;
                       trace := trace s ++ [DriverCall (find_element by_ sel)] |}))
  ∧ (∀ by_ sel el w e w',
       selector_scheme selector = Ok (by_, sel) →
       driver_call (find_element by_ sel) (world s) = (Ok el, w) →
       driver_call (is_displayed el) w = (Raise e, w') →
       ∃ s', _element_visible selector s = (Ok false, s')).
Proof.
  split; [apply element_visible_returns|]. split; [|split].
  - intros Hns. destruct selector; try reflexivity. by destruct (Hns s0).
  - intros by_ sel e w Hscheme Hdrv. unfold _element_visible.
    erewrite try_except_Raise; [reflexivity|].
    erewrite bind_lift by exact Hscheme. cbv beta iota.
    erewrite bind_Raise; [reflexivity|]. by rewrite drv_eq, Hdrv.
  - intros by_ sel el w e w' Hscheme Hfind Hdisp. unfold _element_visible.
    eexists. erewrite try_except_Raise; [reflexivity|].
    erewrite bind_lift by exact Hscheme. cbv beta iota.
    erewrite bind_Ok by (by rewrite drv_eq, Hfind).
    rewrite drv_eq. simpl. by rewrite Hdisp.
Qed.

(** X3. [_get_element] never raises a TimeoutException: a timed-out wait
    comes out as NoSuchElementException "Element not found: <selector>",
    after the one call to the driver; any other exception of the wait is
    passed on as it is. *)
Theorem get_element_never_times_out (selector timeout : value) s :
  (∀ e s', _get_element selector timeout s = (Raise e, s') →
           exn_class_of e ≠ TimeoutException)
  ∧ (∀ by_ sel t e w,
       selector_scheme selector = Ok (by_, sel) →
       py_number timeout = Ok t →
       driver_call (until_presence by_ sel t) (world s) = (Raise e, w) →
       let s' := {| world := w;
                    trace := trace s ++ [DriverCall (until_presence by_ sel t)] |} in
       (exn_class_of e = TimeoutException →
        _get_element selector timeout s
        = (Raise (mk_exn NoSuchElementException
                    ("Element not found: " +:+ py_str selector)), s'))
       ∧ (exn_class_of e ≠ TimeoutException →
          _get_element selector timeout s = (Raise e, s'))).
Proof.
  split.
  - intros e s' Hrun. unfold _get_element, try_except in Hrun.
    match type of Hrun with context [match ?m s with _ => _ end] =>
      destruct (m s) as [[el|e0] s1] end; [done|].
    destruct (exn_class_of e0) eqn:Hclass; unfold raise in Hrun;
      injection Hrun as <- _; by rewrite ?Hclass.
  - intros by_ sel t e w Hscheme Ht Hdrv s'.
    assert (Hbody : ('(by_, sel) ← lift (selector_scheme selector);
                     t ← lift (py_number timeout);
                     drv (until_presence by_ sel t)) s = (Raise e, s')).
    { erewrite bind_lift by exact Hscheme. cbv beta iota.
      erewrite bind_lift by exact Ht. by rewrite drv_eq, Hdrv. }
    split; intros Hclass; unfold _get_element;
      erewrite try_except_Raise by exact Hbody.
    + by rewrite Hclass.
    + by destruct (exn_class_of e).
Qed.

Lemma evaluate_ifExists (d : gmap string value) (sel : value) s :
  d !! "ifExists" = Some sel →
  _evaluate_condition (VDict d) s = _element_exists sel s.
Proof.
  intros Hd. unfold _evaluate_condition.
  rewrite (truthy_nonempty d _ _ Hd). cbn [negb].
  erewrite bind_lift by (by eapply contains_present). cbv iota.
  by erewrite bind_lift by (simpl; by rewrite Hd).
Qed.

(** X4. The element predicates never raise, [ifExists] wins over every
    other key of the predicate, and [ifNotExists] and [ifHidden] are the
    negations of [ifExists] and [ifVisible] on the same selector: same calls,
    same final state, opposite answer. *)
Theorem element_predicates_negate (sel : value) s :
  (∀ d : gmap string value,
     d !! "ifExists" = Some sel →
     ∃ b s', _element_exists sel s = (Ok b, s')
             ∧ _evaluate_condition (VDict d) s = (Ok b, s')
             ∧ ∀ d' : gmap string value,
                 d' !! "ifExists" = None → d' !! "ifNotExists" = Some sel →
                 _evaluate_condition (VDict d') s = (Ok (negb b), s'))
  ∧ (∀ d : gmap string value,
       d !! "ifExists" = None → d !! "ifNotExists" = None →
       d !! "ifVisible" = Some sel →
       ∃ b s', _element_visible sel s = (Ok b, s')
               ∧ _evaluate_condition (VDict d) s = (Ok b, s')
               ∧ ∀ d' : gmap string value,
                   d' !! "ifExists" = None → d' !! "ifNotExists" = None →
                   d' !! "ifVisible" = None → d' !! "ifHidden" = Some sel →
                   _evaluate_condition (VDict d') s = (Ok (negb b), s')).
Proof.
  split.
  - intros d Hd. destruct (element_exists_returns sel s) as (b & s' & Hex).
    exists b, s'. split; [done|]. split; [by rewrite (evaluate_ifExists d sel s Hd)|].
    intros d' Hno Hd'. unfold _evaluate_condition.
    rewrite (truthy_nonempty d' _ _ Hd'). cbn [negb].
    erewrite bind_lift by (by apply contains_absent). cbv iota.
    erewrite bind_lift by (by eapply contains_present). cbv iota.
    erewrite bind_lift by (by apply get_present_item).
    by erewrite bind_Ok by exact Hex.
  - intros d Hno1 Hno2 Hd.
    destruct (element_visible_returns sel s) as (b & s' & Hvis).
    exists b, s'. split; [done|]. split.
    + unfold _evaluate_condition.
      rewrite (truthy_nonempty d _ _ Hd). cbn [negb].
      do 2 (erewrite bind_lift by (by apply contains_absent); cbv iota).
      erewrite bind_lift by (by eapply contains_present). cbv iota.
      by erewrite bind_lift by (by apply get_present_item).
    + intros d' Hn1 Hn2 Hn3 Hd'. unfold _evaluate_condition.
      rewrite (truthy_nonempty d' _ _ Hd'). cbn [negb].
      do 3 (erewrite bind_lift by (by apply contains_absent); cbv iota).
      erewrite bind_lift by (by eapply contains_present). cbv iota.
      erewrite bind_lift by (by apply get_present_item).
      by erewrite bind_Ok by exact Hvis.
Qed.
End ElementQueries.

Lemma element_exists_never_raises_witness :
  _element_exists VNone start = (Ok false, start).
Proof.
  apply (proj1 (proj2 (element_exists_never_raises VNone start))). by intros t.
Defined.

Lemma element_visible_never_raises_witness :
  _element_visible (VStr ".btn") start
  = (Ok false, mk_state 0 [DriverCall (find_element CSS_SELECTOR ".btn")]).
Proof.
  apply (proj1 (proj2 (proj2 (element_visible_never_raises (VStr ".btn") start)))
           CSS_SELECTOR ".btn" (mk_exn NoSuchElementException "no such element") 0);
    reflexivity.
Defined.

Lemma get_element_never_times_out_witness :
  _get_element (VStr ".btn") (VInt 2000) start
  = (Raise (mk_exn NoSuchElementException "Element not found: .btn"),
     mk_state 2000 [DriverCall (until_presence CSS_SELECTOR ".btn" 2000)]).
Proof.
  assert (Hdrv : driver_call (until_presence CSS_SELECTOR ".btn" 2000) (world start)
                 = (Raise (mk_exn TimeoutException "timed out"), 2000))
    by (vm_compute; reflexivity).
  destruct (proj2 (get_element_never_times_out (VStr ".btn") (VInt 2000) start)
              CSS_SELECTOR ".btn" 2000 (mk_exn TimeoutException "timed out") 2000
              eq_refl eq_refl Hdrv) as [Htimeout _].
  exact (Htimeout eq_refl).
Defined.

Lemma element_predicates_negate_witness :
  ∃ b s', _evaluate_condition (VDict present_exists) start = (Ok b, s')
          ∧ _evaluate_condition (VDict present_not_exists) start = (Ok (negb b), s').
Proof.
  assert (H1 : present_exists !! "ifExists" = Some (VStr "#present"))
    by (vm_compute; reflexivity).
  assert (H2 : present_not_exists !! "ifExists" = None) by (vm_compute; reflexivity).
  assert (H3 : present_not_exists !! "ifNotExists" = Some (VStr "#present"))
    by (vm_compute; reflexivity).
  destruct (proj1 (element_predicates_negate (VStr "#present") start) present_exists H1)
    as (b & s' & _ & Hb & Hneg).
  exists b, s'. split; [done|]. by apply Hneg.
Defined.

(** ** Errors of conditions, and the paths through the dispatcher *)

Section DispatcherPaths.
Context {World Element : Type} `{!Environment World Element}.
Implicit Types s : state (World := World) (Element := Element).

(** X5. A url-matches predicate is not guarded: an exception of the
    driver's [current_url], or of the regular expression search, leaves
    [_evaluate_condition] as it is, after that one call to the driver. *)
Theorem url_matches_errors_propagate (d : gmap string value) (pattern : value) s :
  Forall (λ k, d !! k = None) (take 5 recognized_keys) →
  d !! "ifUrlMatches" = Some pattern →
  (∀ e w, driver_call current_url (world s) = (Raise e, w) →
          _evaluate_condition (VDict d) s
          = (Raise e, {| world := w; trace := trace s ++ [DriverCall current_url] |}))
  ∧ (∀ url w, driver_call current_url (world s) = (Ok url, w) →
              _evaluate_condition (VDict d) s
              = (re_search pattern url,
                 {| world := w; trace := trace s ++ [DriverCall current_url] |})).
Proof.
  intros Hkeys Hd. simpl take in Hkeys.
  repeat match goal with
         | H : Forall _ (_ :: _) |- _ => apply Forall_cons in H as [? H]
         end.
  assert (Hunfold : _evaluate_condition (VDict d) s
                    = (url ← drv current_url; lift (re_search pattern url)) s).
  { unfold _evaluate_condition. rewrite (truthy_nonempty d _ _ Hd). cbn [negb].
    repeat (erewrite bind_lift by (by apply contains_absent); cbv iota).
    erewrite bind_lift by (by eapply contains_present). cbv iota.
    by erewrite bind_lift by (by apply get_present_item). }
  rewrite Hunfold. split.
  - intros e w Hdrv. erewrite bind_Raise; [reflexivity|]. by rewrite drv_eq, Hdrv.
  - intros url w Hdrv. erewrite bind_Ok by (by rewrite drv_eq, Hdrv). done.
Qed.

(** X6. An exception of a group's condition is not caught anywhere: it
    leaves [_execute_action_group], the loop and [execute_actions] in the state
    the evaluation left, so no step of the group and no later entry runs and
    there is no report. *)
Theorem group_condition_error_ends_run (g : gmap string value) (condition : value)
    (e : exn) s s1 :
  g !! "condition" = Some condition →
  _evaluate_condition condition s = (Raise e, s1) →
  (∀ b, _execute_action_group (VDict g) b s = (Raise e, s1))
  ∧ (is_Some (g !! "steps") →
     (∀ rest R idx, actions_loop (VDict g :: rest) R idx s = (Raise e, s1))
     ∧ ∀ rest, execute_actions (VDict g :: rest) s = (Raise e, s1)).
Proof.
  intros Hc Hev.
  assert (Htruthy : py_truthy condition = true).
  { unfold _evaluate_condition in Hev. by destruct (py_truthy condition). }
  assert (Hgroup : ∀ b, _execute_action_group (VDict g) b s = (Raise e, s1)).
  { intros b. unfold _execute_action_group.
    erewrite bind_lift by (by apply get_present).
    rewrite Htruthy. by erewrite bind_Raise by exact Hev. }
  split; [done|]. intros [steps Hsteps].
  assert (Hloop : ∀ rest R idx, actions_loop (VDict g :: rest) R idx s = (Raise e, s1)).
  { intros rest R idx. cbn [actions_loop].
    erewrite bind_lift by (by eapply contains_present). cbv iota.
    by erewrite bind_Raise by apply Hgroup. }
  split; [done|]. intros rest. apply Hloop.
Qed.

(** X7. A step whose own condition evaluates false is reported skipped,
    with the time elapsed so far, and the only thing done after the
    condition's evaluation is reading the clock: no executor runs and no
    post-action wait is made. *)
Theorem false_condition_skips_step (a : gmap string value) (idx t0 t1 : Z)
    s s0 sc s' :
  sys time_time s = (Ok t0, s0) →
  _evaluate_condition (default VNone (a !! "condition")) s0 = (Ok false, sc) →
  sys time_time sc = (Ok t1, s') →
  _execute_single_action (VDict a) idx s
  = (Ok {| index := idx; type := default VNone (a !! "type");
           status := "skipped"; duration := t1 - t0;
           message := "Condition not met for "
                      +:+ py_str (default VNone (a !! "type")) +:+ " action";
           selector := default VNone (a !! "selector"); error := None |}, s').
Proof.
  intros Ht0 Hev Ht1.
  rewrite (single_action_unfold a idx s t0 s0 Ht0).
  apply try_except_Ok. unfold single_action_try.
  erewrite bind_lift by reflexivity.
  erewrite bind_Ok by exact Hev. cbn [negb].
  by erewrite bind_Ok by exact Ht1.
Qed.



Lemma sleep_out_of_range (n : Z) s :
  sleep_limit < Z.abs n → py_sleep n s = (Raise (mk_exn OverflowError sleep_overflow), s).
Proof. intros Hbig. unfold py_sleep. apply Z.ltb_lt in Hbig. by rewrite Hbig. Qed.


(** X9. A waitAfter that cannot be used fails a step whose executor has
    already run.  That is a waitAfter that cannot be compared with 0 (a string,
    a list, a dict, None), or a positive one too large to convert to a float,
    or one that converts and is longer than [time.sleep] accepts.  The result
    is failed with that error's text, and what the executor did stays done:
    nothing is slept, only a clock read and the warning follow it. *)
Theorem bad_wait_after_fails_executed_step (a : gmap string value) (idx t0 t1 : Z)
    (msg : string) (e : exn) s s0 sc s2 s3 :
  sys time_time s = (Ok t0, s0) →
  _evaluate_condition (default VNone (a !! "condition")) s0 = (Ok true, sc) →
  dispatch (VDict a) (default VNone (a !! "type")) sc = (Ok msg, s2) →
  (py_gt_zero (default (VInt 0) (a !! "waitAfter")) = Raise e
   ∨ (py_gt_zero (default (VInt 0) (a !! "waitAfter")) = Ok true
      ∧ (py_number (default (VInt 0) (a !! "waitAfter")) = Raise e
         ∨ ∃ n, py_number (default (VInt 0) (a !! "waitAfter")) = Ok n
                ∧ sleep_limit < n
                ∧ e = mk_exn OverflowError sleep_overflow))) →
  sys time_time s2 = (Ok t1, s3) →
  ∃ s' warning,
    _execute_single_action (VDict a) idx s
    = (Ok {| index := idx; type := default VNone (a !! "type");
             status := "failed"; duration := t1 - t0;
             message := "Action failed: " +:+ exn_str e;
             selector := default VNone (a !! "selector");
             error := Some (exn_str e) |}, s')
    ∧ trace s' = trace s2 ++ [SysCall time_time; SysCall (logging WARNING warning)].
Proof.
  intros Ht0 Hev Hdisp Hbad Ht1.
  rewrite (single_action_unfold a idx s t0 s0 Ht0).
  assert (Hbody : single_action_try (VDict a) (default VNone (a !! "type"))
                    (default VNone (a !! "selector")) idx t0 s0 = (Raise e, s2)).
  { unfold single_action_try.
    erewrite bind_lift by reflexivity.
    erewrite bind_Ok by exact Hev. cbn [negb].
    erewrite bind_Ok by exact Hdisp.
    erewrite bind_lift by reflexivity.
    destruct Hbad as [Hcmp | [Hcmp [Hnum | (n & Hnum & Hbig & ->)]]].
    - erewrite bind_Raise; [reflexivity|]. unfold lift. by rewrite Hcmp.
    - erewrite bind_lift by exact Hcmp. cbv iota.
      erewrite bind_Raise; [reflexivity|].
      erewrite bind_Raise; [reflexivity|]. unfold lift. by rewrite Hnum.
    - erewrite bind_lift by exact Hcmp. cbv iota.
      erewrite bind_Raise; [reflexivity|].
      erewrite bind_lift by exact Hnum. apply sleep_out_of_range. lia. }
  erewrite try_except_Raise by exact Hbody.
  unfold single_action_except.
  erewrite bind_Ok by exact Ht1.
  eexists _, _. split.
  - erewrite bind_Ok by apply sys_eq. reflexivity.
  - simpl. rewrite sys_eq in Ht1. injection Ht1 as _ <-. simpl.
    by rewrite <- app_assoc.
Qed.

(** What the dispatcher's result says about the action it was given. *)
Lemma single_action_fields (a : gmap string value) (idx : Z) (r : ActionResult) s s' :
  _execute_single_action (VDict a) idx s = (Ok r, s') →
  index r = idx
  ∧ type r = default VNone (a !! "type")
  ∧ selector r = default VNone (a !! "selector")
  ∧ known_status r
  ∧ (status r = "failed" ↔ is_Some (error r)).
Proof.
  intros Hrun. destruct (sys_returns time_time s) as (t0 & s0 & Ht0).
  rewrite (single_action_unfold a idx s t0 s0 Ht0) in Hrun.
  unfold try_except in Hrun.
  destruct (single_action_try _ _ _ _ _ _) as [[r0|e] s2] eqn:Hbody.
  - injection Hrun as -> ->. unfold single_action_try in Hbody.
    step_lift Hbody as cond Hcond. step_run Hbody as met sc Hmet.
    destruct (negb met).
    + step_run Hbody as t1 s3 Ht1. apply ret_Ok_inv in Hbody as [-> _].
      unfold known_status. simpl. repeat split; auto; try done;
        try by intros [? ?].
    + step_run Hbody as msg s3 Hdisp. step_lift Hbody as wa Hwa.
      step_lift Hbody as n Hn. step_run Hbody as u s4 Hsleep.
      step_run Hbody as t1 s5 Ht1. apply ret_Ok_inv in Hbody as [-> _].
      unfold known_status. simpl. repeat split; auto; try done;
        try by intros [? ?].
  - unfold single_action_except in Hrun.
    step_run Hrun as t1 s3 Ht1. step_run Hrun as u s4 Hlog.
    apply ret_Ok_inv in Hrun as [-> _].
    unfold known_status. simpl. repeat split; auto; try by eexists.
Qed.

Lemma single_action_returns (a : gmap string value) (idx : Z) s :
  ∃ r s', _execute_single_action (VDict a) idx s = (Ok r, s').
Proof.
  destruct (sys_returns time_time s) as (t0 & s0 & Ht0).
  rewrite (single_action_unfold a idx s t0 s0 Ht0). unfold try_except.
  destruct (single_action_try _ _ _ _ _ s0) as [[r|e] s1]; [eauto|].
  destruct (sys_returns time_time s1) as (t1 & s2 & Ht1).
  destruct (except_returns (default VNone (a !! "type"))
              (default VNone (a !! "selector")) idx t0 e s1 t1 s2 Ht1)
    as (s' & Hs'). eauto.
Qed.

(** X10. Whatever happens inside it, the dispatcher's result echoes the
    index it was given and the action's type and selector (None when the key
    is missing), has one of the three statuses, and carries an error exactly
    when the status is failed. *)
Theorem single_action_echoes_action (a : gmap string value) (idx : Z) s :
  ∃ r s', _execute_single_action (VDict a) idx s = (Ok r, s')
          ∧ index r = idx
          ∧ type r = default VNone (a !! "type")
          ∧ selector r = default VNone (a !! "selector")
          ∧ (status r = "success" ∨ status r = "failed" ∨ status r = "skipped")
          ∧ (status r = "failed" ↔ is_Some (error r)).
Proof.
  destruct (single_action_returns a idx s) as (r & s' & Hrun).
  exists r, s'. split; [done|]. by apply single_action_fields in Hrun.
Qed.
End DispatcherPaths.

Lemma url_matches_errors_propagate_witness :
  _evaluate_condition (VDict url_without_pattern) start
  = (Raise (mk_exn TypeError "first argument must be string or compiled pattern"),
     mk_state 0 [DriverCall current_url]).
Proof.
  assert (Hkeys : Forall (λ k, url_without_pattern !! k = None) (take 5 recognized_keys))
    by (repeat constructor).
  assert (Hd : url_without_pattern !! "ifUrlMatches" = Some VNone)
    by (vm_compute; reflexivity).
  assert (Hdrv : driver_call current_url (world start) = (Ok "about:blank", 0))
    by reflexivity.
  rewrite (proj2 (url_matches_errors_propagate url_without_pattern VNone start Hkeys Hd)
             "about:blank" 0 Hdrv).
  reflexivity.
Defined.

Lemma group_condition_error_ends_run_witness :
  ∃ e s1, execute_actions [VDict url_gated_group; VDict run_script] start = (Raise e, s1)
          ∧ trace s1 = [DriverCall current_url].
Proof.
  assert (Hc : url_gated_group !! "condition" = Some (VDict url_without_pattern))
    by (vm_compute; reflexivity).
  assert (Hs : is_Some (url_gated_group !! "steps")) by (by eexists; vm_compute).
  assert (Hev : _evaluate_condition (VDict url_without_pattern) start
                = (Raise (mk_exn TypeError
                            "first argument must be string or compiled pattern"),
                   mk_state 0 [DriverCall current_url]))
    by (vm_compute; reflexivity).
  eexists _, _. split.
  - apply (proj2 (proj2 (group_condition_error_ends_run url_gated_group
                           (VDict url_without_pattern) _ start _ Hc Hev) Hs)).
  - reflexivity.
Defined.

Lemma false_condition_skips_step_witness :
  ∃ r s', _execute_single_action (VDict gated_script) 0 start = (Ok r, s')
          ∧ status r = "skipped"
          ∧ trace s' = [SysCall time_time;
                        DriverCall (find_elements CSS_SELECTOR ".modal");
                        SysCall time_time].
Proof.
  eexists _, _. split.
  - eapply (false_condition_skips_step gated_script 0 0 0 start
              (mk_state 0 [SysCall time_time])
              (mk_state 0 [SysCall time_time;
                           DriverCall (find_elements CSS_SELECTOR ".modal")])).
    + reflexivity.
    + vm_compute. reflexivity.
    + reflexivity.
  - split; reflexivity.
Defined.


Lemma bad_wait_after_fails_executed_step_witness :
  ∃ r s', _execute_single_action (VDict script_then_bad_wait) 0 start = (Ok r, s')
          ∧ status r = "failed"
          ∧ error r = Some "'>' not supported between instances of 'str' and 'int'".
Proof.
  destruct (bad_wait_after_fails_executed_step script_then_bad_wait 0 0 0
              "Executed script, result: None"
              (mk_exn TypeError "'>' not supported between instances of 'str' and 'int'")
              start
              (mk_state 0 [SysCall time_time])
              (mk_state 0 [SysCall time_time])
              (mk_state 0 [SysCall time_time;
                           DriverCall (execute_script (VStr "return 1") [])])
              (mk_state 0 [SysCall time_time;
                           DriverCall (execute_script (VStr "return 1") []);
                           SysCall time_time]))
    as (s' & warning & Hrun & _).
  - reflexivity.
  - vm_compute. reflexivity.
  - vm_compute. reflexivity.
  - left. vm_compute. reflexivity.
  - reflexivity.
  - eexists _, s'. split; [exact Hrun|]. split; reflexivity.
Defined.

(** ** The single-action executors *)

Section Executors.
Context {World Element : Type} `{!Environment World Element}.
Implicit Types s : state (World := World) (Element := Element).


Lemma wait_default_eq s :
  wait_default s
  = (Ok "Default wait executed",
     {| world := (sys_call (time_sleep 500) (world s)).2;
        trace := trace s ++ [SysCall (time_sleep 500)] |}).
Proof.
  unfold wait_default, py_sleep.
  pose proof sleep_limit_half_second as Hlimit.
  destruct (sleep_limit <? Z.abs 500) eqn:Hbig; [apply Z.ltb_lt in Hbig; lia|].
  simpl (500 <? 0).
  by erewrite bind_Ok by apply sys_eq.
Qed.

(** X12. A wait action that names nothing the code knows how to wait for
    is the default wait: with no ['time'] and no ['urlChange'], a selector
    whose state is none of visible, hidden, present, and an event that is
    neither load nor DOMContentLoaded, are passed over, the driver is never
    called, half a second is slept and the action succeeds. *)
Theorem wait_without_known_target_is_default (a wait_for : gmap string value) s :
  default (VDict ∅) (a !! "for") = VDict wait_for →
  wait_for !! "time" = None →
  wait_for !! "urlChange" = None →
  (wait_for !! "selector" = None
   ∨ (is_Some (wait_for !! "selector")
      ∧ (∃ t, py_number (default (VInt 10000) (wait_for !! "timeout")) = Ok t)
      ∧ Forall (λ known, py_eq_str (default (VStr "visible") (wait_for !! "state"))
                           known = false)
          ["visible"; "hidden"; "present"])) →
  (wait_for !! "event" = None
   ∨ (∃ ev t, wait_for !! "event" = Some ev
        ∧ py_number (default (VInt 30000) (wait_for !! "timeout")) = Ok t
        ∧ py_eq_str ev "load" = false ∧ py_eq_str ev "DOMContentLoaded" = false)) →
  _execute_wait_action (VDict a) s
  = (Ok "Default wait executed",
     {| world := (sys_call (time_sleep 500) (world s)).2;
        trace := trace s ++ [SysCall (time_sleep 500)] |}).
Proof.
  intros Hfor Htime Hurl Hsel Hev.
  assert (Hurlchange : wait_url_change (VDict wait_for) s = wait_default s).
  { unfold wait_url_change.
    by erewrite bind_lift by (by apply contains_absent). }
  assert (Hevent : wait_event (VDict wait_for) s = wait_default s).
  { unfold wait_event. destruct Hev as [Hnone | (ev & t & Hsome & Ht & Hl & Hd)].
    - by erewrite bind_lift by (by apply contains_absent).
    - erewrite bind_lift by (by eapply contains_present). cbv iota.
      erewrite bind_lift by (by apply get_present_item).
      erewrite bind_lift by (simpl; exact Ht).
      by rewrite Hl, Hd. }
  unfold _execute_wait_action.
  erewrite bind_lift by (simpl; by rewrite Hfor).
  erewrite bind_lift by (by apply contains_absent). cbv iota.
  rewrite <- wait_default_eq, <- Hevent. unfold wait_selector.
  destruct Hsel as [Hnone | ([sel Hsome] & [t Ht] & Hstates)].
  - by erewrite bind_lift by (by apply contains_absent).
  - erewrite bind_lift by (by eapply contains_present). cbv iota.
    erewrite bind_lift by (by apply get_present_item).
    erewrite bind_lift by reflexivity.
    erewrite bind_lift by (simpl; exact Ht).
    repeat match goal with
           | H : Forall _ (_ :: _) |- _ => apply Forall_cons in H as [? H]
           end.
    repeat match goal with H : py_eq_str _ _ = false |- _ => rewrite H; clear H end.
    done.
Qed.

(** X13. An executor whose required key is missing raises KeyError for
    that key before anything is done: click and type without ['selector'],
    type without ['value'], execute_script without ['script']; and a click
    step without selector is reported failed with that error after two clock
    reads and the warning, the driver never having been called. *)
Theorem missing_key_raises_before_driver (a : gmap string value) s :
  (a !! "selector" = None →
   _execute_click_action (VDict a) s = (Raise (mk_exn KeyError "selector"), s)
   ∧ _execute_type_action (VDict a) s = (Raise (mk_exn KeyError "selector"), s))
  ∧ (is_Some (a !! "selector") → a !! "value" = None →
     _execute_type_action (VDict a) s = (Raise (mk_exn KeyError "value"), s))
  ∧ (a !! "script" = None →
     _execute_execute_script_action (VDict a) s = (Raise (mk_exn KeyError "script"), s))
  ∧ (a !! "selector" = None → a !! "type" = Some (VStr "click") →
     a !! "condition" = None →
     ∃ r s' warning,
       _execute_single_action (VDict a) 0 s = (Ok r, s')
       ∧ status r = "failed"
       ∧ error r = Some (exn_str (mk_exn KeyError "selector"))
       ∧ trace s' = trace s ++ [SysCall time_time; SysCall time_time;
                                SysCall (logging WARNING warning)]).
Proof.
  assert (Hclick : a !! "selector" = None → ∀ s0,
    _execute_click_action (VDict a) s0 = (Raise (mk_exn KeyError "selector"), s0)).
  { intros Hsel s0. unfold _execute_click_action.
    erewrite bind_Raise; [reflexivity|]. unfold lift. simpl. by rewrite Hsel. }
  split; [|split; [|split]].
  - intros Hsel. split; [by apply Hclick|]. unfold _execute_type_action.
    erewrite bind_Raise; [reflexivity|]. unfold lift. simpl. by rewrite Hsel.
  - intros [sel Hsel] Hval. unfold _execute_type_action.
    erewrite bind_lift by (by apply get_present_item).
    erewrite bind_Raise; [reflexivity|]. unfold lift. simpl. by rewrite Hval.
  - intros Hscript. unfold _execute_execute_script_action.
    erewrite bind_Raise; [reflexivity|]. unfold lift. simpl. by rewrite Hscript.
  - intros Hsel Htype Hcond.
    rewrite (single_action_unfold a 0 s _ _ (sys_eq time_time s)).
    rewrite Htype, Hsel. simpl default.
    erewrite try_except_Raise.
    2:{ unfold single_action_try.
        erewrite bind_lift by (simpl; by rewrite Hcond).
        erewrite bind_Ok by reflexivity. cbn [negb].
        erewrite bind_Raise; [reflexivity|].
        unfold dispatch. simpl. by apply Hclick. }
    unfold single_action_except.
    erewrite bind_Ok by apply sys_eq.
    erewrite bind_Ok by apply sys_eq.
    eexists _, _, _. split; [reflexivity|]. simpl. split; [done|]. split; [done|].
    by rewrite <- !app_assoc.
Qed.

(** X14. Typing queues the characters of the value in order: the chain
    grows by one send_keys and one pause per character; each pause is what
    [random.uniform] gave, between 50 and 150 ms; and nothing but those
    [random.uniform] calls is made. *)
Theorem type_chars_sends_value_in_order (chars : list value) :
  ∀ (chain : list (chain_step Element)) s,
    ∃ pauses s',
      type_chars chars chain s
      = (Ok (chain ++ mjoin (zip_with (λ c p, [send_keys (Key c); chain_pause p])
                               chars pauses)), s')
      ∧ length pauses = length chars
      ∧ Forall (λ p, 50 ≤ p ≤ 150) pauses
      ∧ trace s' = trace s ++ replicate (length chars) (SysCall (random_uniform 50 150)).
Proof.
  induction chars as [|c chars IH]; intros chain s.
  - exists [], s. simpl. by rewrite !app_nil_r.
  - cbn [type_chars].
    pose proof (random_uniform_range 50 150 (world s) ltac:(lia)) as Hrange.
    destruct (IH (chain ++ [send_keys (Key c);
                            chain_pause (sys_call (random_uniform 50 150) (world s)).1])
                 {| world := (sys_call (random_uniform 50 150) (world s)).2;
                    trace := trace s ++ [SysCall (random_uniform 50 150)] |})
      as (pauses & s' & Hrun & Hlen & Hall & Htrace).
    exists ((sys_call (random_uniform 50 150) (world s)).1 :: pauses), s'.
    erewrite bind_Ok by apply sys_eq. rewrite Hrun.
    split; [|split; [|split]].
    + simpl. by rewrite <- app_assoc.
    + simpl. by rewrite Hlen.
    + by constructor.
    + rewrite Htrace. simpl. by rewrite <- app_assoc.
Qed.

(** X15. Without a selector - the key missing, None or the empty string -
    press_enter sends ENTER to the active element with one call to the
    driver, looks no element up, and returns or raises as that call does. *)
Theorem press_enter_without_selector (a : gmap string value) s :
  py_truthy (default VNone (a !! "selector")) = false →
  _execute_press_enter_action (VDict a) s
  = (match (driver_call (perform [send_keys ENTER]) (world s)).1 with
     | Ok _ => Ok "Pressed Enter on active element"
     | Raise e => Raise e
     end,
     {| world := (driver_call (perform [send_keys ENTER]) (world s)).2;
        trace := trace s ++ [DriverCall (perform [send_keys ENTER])] |}).
Proof.
  intros Hfalsy. unfold _execute_press_enter_action.
  erewrite bind_lift by reflexivity.
  erewrite bind_lift by reflexivity.
  rewrite Hfalsy.
  destruct (driver_call (perform [send_keys ENTER]) (world s)) as [[u|e] w] eqn:Hdrv.
  - erewrite bind_Ok by (by rewrite drv_eq, Hdrv). done.
  - erewrite bind_Raise; [reflexivity|]. by rewrite drv_eq, Hdrv.
Qed.

(** X16. A click acts only on an element it has found: when the lookup
    raises, the click raises the same and nothing more is done; and when the
    click returns, the last call to the driver is the move to the found
    element followed by the click. *)
Theorem click_acts_only_on_found_element (a : gmap string value) (selector : value) s :
  a !! "selector" = Some selector →
  (∀ e s1, _get_element selector (default (VInt 10000) (a !! "timeout")) s = (Raise e, s1) →
           _execute_click_action (VDict a) s = (Raise e, s1))
  ∧ (∀ msg s', _execute_click_action (VDict a) s = (Ok msg, s') →
       msg = "Clicked element " +:+ py_str selector
       ∧ ∃ el s1 x y before,
           _get_element selector (default (VInt 10000) (a !! "timeout")) s = (Ok el, s1)
           ∧ trace s' = before ++ [DriverCall (perform
                                     [move_to_element_with_offset el x y; click None])]).
Proof.
  intros Hsel. split.
  - intros e s1 Hget. unfold _execute_click_action.
    erewrite bind_lift by (by apply get_present_item).
    erewrite bind_lift by reflexivity.
    by erewrite bind_Raise by exact Hget.
  - intros msg s' Hrun. unfold _execute_click_action in Hrun.
    step_lift Hrun as sel Hs. simpl in Hs. rewrite Hsel in Hs. injection Hs as <-.
    step_lift Hrun as timeout Ht. injection Ht as <-.
    step_run Hrun as el s1 Hget. step_run Hrun as u1 s2 Hscroll.
    step_run Hrun as u2 s3 Hpause. step_run Hrun as x s4 Hx.
    step_run Hrun as y s5 Hy. step_run Hrun as u3 s6 Hperform.
    apply ret_Ok_inv in Hrun as [-> ->]. split; [done|].
    exists el, s1, x, y, (trace s5). split; [done|].
    rewrite drv_eq in Hperform. by injection Hperform as _ <-.
Qed.
End Executors.


Lemma wait_without_known_target_is_default_witness :
  ∃ s', _execute_wait_action (VDict wait_clickable) start
        = (Ok "Default wait executed", s')
        ∧ trace s' = [SysCall (time_sleep 500)].
Proof.
  eexists. split.
  - apply (wait_without_known_target_is_default wait_clickable wait_clickable_target start).
    + vm_compute. reflexivity.
    + vm_compute. reflexivity.
    + vm_compute. reflexivity.
    + right. split; [by eexists; vm_compute|]. split.
      * exists 10000. vm_compute. reflexivity.
      * repeat constructor.
    + left. vm_compute. reflexivity.
  - reflexivity.
Defined.

Lemma missing_key_raises_before_driver_witness :
  _execute_click_action (VDict run_script) start
  = (Raise (mk_exn KeyError "selector"), start).
Proof.
  assert (Hsel : run_script !! "selector" = None) by (vm_compute; reflexivity).
  exact (proj1 (proj1 (missing_key_raises_before_driver run_script start) Hsel)).
Defined.

Lemma press_enter_without_selector_witness :
  _execute_press_enter_action (VDict enter_nowhere) start
  = (Ok "Pressed Enter on active element",
     mk_state 0 [DriverCall (perform [send_keys ENTER])]).
Proof.
  assert (Hfalsy : py_truthy (default VNone (enter_nowhere !! "selector")) = false)
    by (vm_compute; reflexivity).
  exact (press_enter_without_selector enter_nowhere start Hfalsy).
Defined.

Lemma click_acts_only_on_found_element_witness :
  _execute_click_action (VDict click_btn) start
  = (Raise (mk_exn NoSuchElementException "Element not found: .btn"),
     mk_state 10000 [DriverCall (until_presence CSS_SELECTOR ".btn" 10000)]).
Proof.
  assert (Hsel : click_btn !! "selector" = Some (VStr ".btn"))
    by (vm_compute; reflexivity).
  apply (proj1 (click_acts_only_on_found_element click_btn (VStr ".btn") start Hsel)).
  vm_compute. reflexivity.
Defined.

(** ** Groups and runs that continue, and what a report holds *)

Section ContinuingRuns.
Context {World Element : Type} `{!Environment World Element}.
Implicit Types s : state (World := World) (Element := Element).

Lemma skip_remaining_dicts (ds : list (gmap string value)) (b : Z) (js : list nat) :
  Forall (λ j, j < length ds)%nat js →
  ∀ acc, ∃ rs, skip_remaining (VList (VDict <$> ds)) b js acc = Ok rs.
Proof.
  induction js as [|j js IH]; intros Hjs acc; [by eexists|].
  apply Forall_cons in Hjs as [Hj Hjs]. cbn [skip_remaining].
  destruct (lookup_lt_is_Some_2 ds j Hj) as [d Hd].
  assert (py_index (VList (VDict <$> ds)) j = Ok (VDict d)) as ->.
  { simpl. by rewrite list_lookup_fmap, Hd. }
  cbn [mbind outcome_bind]. rewrite skipped_result_dict. cbn [mbind outcome_bind].
  by apply IH.
Qed.

Lemma group_loop_returns (ds : list (gmap string value)) (cont : value) (b : Z)
    (rest : list (gmap string value)) :
  ∀ (i : nat) (acc : list ActionResult) s,
    ∃ rs s', group_loop (VList (VDict <$> ds)) cont b i (VDict <$> rest) acc s = (Ok rs, s').
Proof.
  induction rest as [|d rest IH]; intros i acc s; [by eexists _, _|].
  rewrite fmap_cons. cbn [group_loop].
  destruct (single_action_returns d (b + Z.of_nat i) s) as (r & s1 & Hr).
  erewrite bind_Ok by exact Hr. cbv zeta.
  destruct (pause_returns 100 300 s1) as [s2 Hpause]; [lia..|].
  destruct (IH (S i) (acc ++ [r]) s2) as (rs & s' & Hloop).
  destruct (bool_decide (status r = "failed")).
  - erewrite bind_lift by reflexivity.
    destruct (negb (py_truthy _)).
    + erewrite bind_lift by reflexivity.
      destruct (skip_remaining_dicts ds b (seq (S i) (length (VDict <$> ds) - S i)))
        with (acc := acc ++ [r]) as [rs' Hrs'].
      { apply Forall_forall. intros j Hj. apply elem_of_seq in Hj.
        rewrite length_fmap in Hj. lia. }
      exists rs', s1. unfold lift. by rewrite Hrs'.
    + erewrite bind_Ok by exact Hpause. eauto.
  - erewrite bind_Ok by exact Hpause. eauto.
Qed.

Lemma group_returns (g : gmap string value) (ds : list (gmap string value)) (b : Z) s :
  py_truthy (default VNone (g !! "condition")) = false →
  g !! "steps" = Some (VList (VDict <$> ds)) →
  ∃ rs s', _execute_action_group (VDict g) b s = (Ok (rs, length ds), s').
Proof.
  intros Hcond Hsteps. unfold _execute_action_group.
  erewrite bind_lift by reflexivity. rewrite Hcond.
  erewrite bind_Ok by reflexivity. cbn [negb].
  erewrite bind_lift by (by apply get_present).
  erewrite bind_lift by reflexivity.
  erewrite bind_lift by reflexivity.
  destruct (group_loop_returns ds (default (VBool false) (g !! "continueOnError"))
              b ds 0%nat [] s) as (rs & s' & Hloop).
  erewrite bind_Ok by exact Hloop.
  erewrite bind_lift by reflexivity.
  exists rs, s'. by rewrite length_fmap.
Qed.

(** X17. A group of step dictionaries without a condition of its own
    always returns, with the declared count: whatever its steps raise, no
    exception leaves [_execute_action_group]. *)
Theorem group_of_actions_always_returns (g : gmap string value)
    (ds : list (gmap string value)) (base_index : Z) s :
  py_truthy (default VNone (g !! "condition")) = false →
  g !! "steps" = Some (VList (VDict <$> ds)) →
  ∃ results s',
    _execute_action_group (VDict g) base_index s = (Ok (results, length ds), s')
    ∧ length results = length ds.
Proof.
  intros Hcond Hsteps.
  destruct (group_returns g ds base_index s Hcond Hsteps) as (rs & s' & Hrun).
  exists rs, s'. split; [done|].
  by apply group_results in Hrun as (_ & Hlen & _).
Qed.

(** X18. A run over single actions and groups without a condition of
    their own always returns a report: the errors of steps are reported, they
    never end [execute_actions]. *)
Theorem run_of_plain_entries_returns (actions : list value) s :
  Forall plain_entry actions →
  ∃ R s', execute_actions actions s = (Ok R, s').
Proof.
  unfold execute_actions. generalize new_results, 0. revert s.
  induction actions as [|entry actions IH]; intros s R idx Hall; [by eexists _, _|].
  apply Forall_cons in Hall as [(a & -> & Hentry) Hall]. cbn [actions_loop].
  destruct Hentry as [Hsingle | (Hcond & ds & Hsteps)].
  - erewrite bind_lift by (by apply contains_absent). cbv iota.
    destruct (single_action_returns a idx s) as (r & s1 & Hr).
    erewrite bind_Ok by exact Hr. cbv zeta.
    destruct (pause_returns 100 300 s1) as [s2 Hpause]; [lia..|].
    destruct (IH s2 (add_result R r) (idx + 1) Hall) as (R' & s' & Hloop).
    destruct (bool_decide (status r = "failed")).
    + erewrite bind_lift by reflexivity.
      destruct (negb (py_truthy _)).
      * erewrite bind_Ok by apply sys_eq. by eexists _, _.
      * erewrite bind_Ok by exact Hpause. eauto.
    + erewrite bind_Ok by exact Hpause. eauto.
  - erewrite bind_lift by (by eapply contains_present). cbv iota.
    destruct (group_returns a ds idx s Hcond Hsteps) as (rs & s1 & Hgroup).
    erewrite bind_Ok by exact Hgroup. cbv beta iota. by apply IH.
Qed.

Lemma group_loop_dispatched (items : list value) (cont : value) (b : Z)
    (rest : list value) :
  Forall (λ step, ∀ v, py_get step "continueOnError" cont = Ok v → py_truthy v = true)
    rest →
  ∀ (i : nat) (acc rs : list ActionResult) s s',
    group_loop (VList items) cont b i rest acc s = (Ok rs, s') →
    ∃ tail, rs = acc ++ tail
      ∧ length tail = length rest
      ∧ ∀ k step r, rest !! k = Some step → tail !! k = Some r →
          ∃ s1 s2, _execute_single_action step (b + Z.of_nat (i + k)) s1 = (Ok r, s2).
Proof.
  induction rest as [|step rest IH]; intros Hall i acc rs s s' Hrun; simpl in Hrun.
  - apply ret_Ok_inv in Hrun as [-> _]. exists []. by rewrite app_nil_r.
  - apply Forall_cons in Hall as [Hstep Hall].
    step_run Hrun as r0 s1 Hr0.
    assert (Hnext : ∀ s2,
      group_loop (VList items) cont b (S i) rest (acc ++ [r0]) s2 = (Ok rs, s') →
      ∃ tail, rs = acc ++ tail
        ∧ length tail = length (step :: rest)
        ∧ ∀ k st r, (step :: rest) !! k = Some st → tail !! k = Some r →
            ∃ s1 s2, _execute_single_action st (b + Z.of_nat (i + k)) s1 = (Ok r, s2)).
    { intros s2 Hloop. apply (IH Hall) in Hloop as (tail & -> & Hlen & Hk).
      exists (r0 :: tail). rewrite <- app_assoc. split; [done|].
      split; [simpl; by rewrite Hlen|].
      intros [|k] st r Hst Hr; simpl in Hst, Hr.
      - injection Hst as <-. injection Hr as <-. rewrite Nat.add_0_r. eauto.
      - replace (i + S k)%nat with (S i + k)%nat by lia. eauto. }
    destruct (bool_decide (status r0 = "failed")).
    + step_lift Hrun as v Hv. rewrite (Hstep v Hv) in Hrun. cbn [negb] in Hrun.
      step_run Hrun as u s2 Hpause. eauto.
    + step_run Hrun as u s2 Hpause. eauto.
Qed.

(** X19. When the effective continue-on-error of every step is truthy, a
    group whose condition is absent or met dispatches every step: each
    position holds what [_execute_single_action] returned for that step at
    that index, and no position holds a propagated skip. *)
Theorem continuing_group_dispatches_every_step (g : gmap string value)
    (items : list value) (base_index : Z) (results : list ActionResult) (n : nat)
    s sc s' :
  g !! "steps" = Some (VList items) →
  (if py_truthy (default VNone (g !! "condition"))
   then _evaluate_condition (default VNone (g !! "condition"))
   else mret true) s = (Ok true, sc) →
  Forall (λ step, ∀ v,
            py_get step "continueOnError"
              (default (VBool false) (g !! "continueOnError")) = Ok v →
            py_truthy v = true) items →
  _execute_action_group (VDict g) base_index s = (Ok (results, n), s') →
  n = length items ∧ length results = length items
  ∧ ∀ k step r, items !! k = Some step → results !! k = Some r →
      ∃ s1 s2, _execute_single_action step (base_index + Z.of_nat k) s1 = (Ok r, s2).
Proof.
  intros Hsteps Hmet Hall Hrun. unfold _execute_action_group in Hrun.
  step_lift Hrun as cond Hcond. injection Hcond as <-.
  rewrite (bind_Ok _ _ _ _ _ Hmet) in Hrun. cbn [negb] in Hrun.
  step_lift Hrun as steps Hs. simpl in Hs. rewrite Hsteps in Hs. injection Hs as <-.
  step_lift Hrun as cont Hc. injection Hc as <-.
  step_lift Hrun as its Hi. injection Hi as <-.
  step_run Hrun as rs s1 Hloop. step_lift Hrun as m Hm. injection Hm as <-.
  apply ret_Ok_inv in Hrun as [[= -> ->] _].
  apply (group_loop_dispatched items _ base_index items Hall) in Hloop
    as (tail & -> & Hlen & Hk).
  split; [done|]. split; [done|]. intros k step r Hstep Hr.
  by apply (Hk k step r).
Qed.

Lemma skip_group_Forall (P : ActionResult → Prop) (b : Z) (rest : list value) :
  (∀ idx d msg, P (skipped_record idx d msg)) →
  ∀ (i : nat) (acc rs : list ActionResult),
    skip_group b i rest acc = Ok rs → Forall P acc → Forall P rs.
Proof.
  intros Hskip. induction rest as [|step rest IH]; intros i acc rs Hrun Hacc;
    simpl in Hrun.
  - by injection Hrun as <-.
  - destruct (skipped_result _ step _) as [r|e] eqn:Hr; [|discriminate].
    simpl in Hrun. apply skipped_result_inv in Hr as (d & -> & ->).
    apply IH in Hrun; [done|]. apply Forall_app. split; [done|]. by constructor.
Qed.

Lemma group_Forall (P : ActionResult → Prop) (g : value) (b : Z)
    (rs : list ActionResult) (n : nat) s s' :
  (∀ a idx s r s', _execute_single_action (VDict a) idx s = (Ok r, s') → P r) →
  (∀ idx d msg, P (skipped_record idx d msg)) →
  _execute_action_group g b s = (Ok (rs, n), s') → Forall P rs.
Proof.
  intros Hsingle Hskip Hrun. unfold _execute_action_group in Hrun.
  step_lift Hrun as cond Hcond. step_run Hrun as met sc Hmet. destruct (negb met).
  - step_lift Hrun as steps Hsteps. step_lift Hrun as items Hiter.
    step_lift Hrun as results Hres. step_lift Hrun as m Hlen.
    apply ret_Ok_inv in Hrun as [[= -> ->] _].
    by apply (skip_group_Forall P b items Hskip) in Hres.
  - step_lift Hrun as steps Hsteps. step_lift Hrun as cont Hcont.
    step_lift Hrun as items Hiter. step_run Hrun as results s1 Hloop.
    step_lift Hrun as m Hlen. apply ret_Ok_inv in Hrun as [[= -> ->] _].
    clear Hiter Hlen Hmet Hcond Hsteps Hcont. revert Hloop. generalize 0%nat.
    assert (Hacc : Forall P []) by constructor. revert Hacc. generalize (@nil ActionResult).
    revert sc. induction items as [|step items IH]; intros sc acc Hacc i Hloop;
      simpl in Hloop.
    + by apply ret_Ok_inv in Hloop as [-> _].
    + step_run Hloop as r0 s2 Hr0.
      pose proof (single_action_result _ _ _ _ _ Hr0) as (a0 & -> & _).
      assert (Hacc' : Forall P (acc ++ [r0])).
      { apply Forall_app. split; [done|]. constructor; [|done]. by eapply Hsingle. }
      destruct (bool_decide (status r0 = "failed")).
      * step_lift Hloop as v Hv. destruct (negb (py_truthy v)).
        -- step_lift Hloop as len Hm. apply lift_Ok_inv in Hloop as [Hloop _].
           apply skip_remaining_inv in Hloop as (tail & -> & Hall).
           apply Forall_app. split; [done|]. apply Forall_forall. intros r Hr.
           apply list_elem_of_lookup in Hr as [k Hk].
           destruct (Forall2_lookup_r _ _ _ _ _ Hall Hk) as (j & _ & d & _ & ->).
           apply Hskip.
        -- step_run Hloop as u s3 Hpause. by eapply IH.
      * step_run Hloop as u s3 Hpause. by eapply IH.
Qed.

Lemma actions_loop_Forall (P : ActionResult → Prop) (rest : list value) :
  (∀ a idx s r s', _execute_single_action (VDict a) idx s = (Ok r, s') → P r) →
  (∀ idx d msg, P (skipped_record idx d msg)) →
  ∀ (R : ActionExecutionResults) (idx : Z) s R' s',
    actions_loop rest R idx s = (Ok R', s') →
    Forall P (details R) → Forall P (details R').
Proof.
  intros Hsingle Hskip.
  induction rest as [|entry rest IH]; intros R idx s R' s' Hrun HR; simpl in Hrun.
  - by apply ret_Ok_inv in Hrun as [-> _].
  - step_lift Hrun as is_group Hin. destruct is_group.
    + step_run Hrun as pair s1 Hgroup. destruct pair as [rs n].
      apply (group_Forall P _ _ _ _ _ _ Hsingle Hskip) in Hgroup.
      apply IH in Hrun; [done|].
      rewrite details_foldl_add_result. by apply Forall_app.
    + step_run Hrun as r0 s1 Hr0. cbv zeta in Hrun.
      pose proof (single_action_result _ _ _ _ _ Hr0) as (a0 & -> & _).
      assert (HR' : Forall P (details (add_result R r0))).
      { rewrite details_add_result. apply Forall_app. split; [done|].
        constructor; [|done]. by eapply Hsingle. }
      destruct (bool_decide (status r0 = "failed")).
      * step_lift Hrun as v Hv. destruct (negb (py_truthy v)).
        -- step_run Hrun as u s2 Hlog. by apply ret_Ok_inv in Hrun as [-> _].
        -- step_run Hrun as u s2 Hpause. by eapply IH.
      * step_run Hrun as u s2 Hpause. by eapply IH.
Qed.

(** X20. Every result of a returned report - dispatched, skipped with its
    group or skipped after a failure - has one of the three statuses and
    carries an error exactly when its status is failed. *)
Theorem report_results_well_formed (actions : list value)
    (R : ActionExecutionResults) s s' :
  execute_actions actions s = (Ok R, s') →
  Forall well_formed_result (details R).
Proof.
  intros Hrun. unfold execute_actions in Hrun.
  apply (actions_loop_Forall well_formed_result) in Hrun; [done| | |by constructor].
  - intros a idx s0 r s1 Hr. by apply single_action_fields in Hr as (_ & _ & _ & ? & ?).
  - intros idx d msg. split; [right; by right|]. simpl. split; [done|by intros [? ?]].
Qed.

(** X21. When every single top-level action has a truthy continueOnError,
    nothing stops a run: a returned report holds one result for every declared
    step of the whole list, and [executed + skipped] is that number. *)
Theorem continuing_run_covers_every_step (actions : list value)
    (R : ActionExecutionResults) s s' :
  Forall (λ entry, ∀ a : gmap string value,
            entry = VDict a → a !! "steps" = None →
            py_truthy (default (VBool false) (a !! "continueOnError")) = true)
    actions →
  execute_actions actions s = (Ok R, s') →
  length (details R) = total_declared actions
  ∧ executed R + skipped R = Z.of_nat (total_declared actions).
Proof.
  intros Hall Hrun.
  apply execute_actions_inv in Hrun
    as ((He & Hs & Hf & Hk) & _ & Hknown & done & todo & -> & Hlen & Hstop).
  pose proof (count_known _ Hknown) as Hcount.
  destruct Hstop as [-> | (pre & a & r & -> & Hsingle & _ & _ & Hfalsy)].
  - rewrite app_nil_r. split; [done|]. lia.
  - exfalso. apply Forall_app in Hall as [Hall _].
    apply Forall_app in Hall as [_ Hall]. apply Forall_inv in Hall.
    rewrite (Hall a eq_refl Hsingle) in Hfalsy. done.
Qed.
End ContinuingRuns.

Lemma group_of_actions_always_returns_witness :
  ∃ results s',
    _execute_action_group (VDict continuing_group) 0 start = (Ok (results, 2%nat), s')
    ∧ length results = 2%nat.
Proof.
  assert (Hcond : py_truthy (default VNone (continuing_group !! "condition")) = false)
    by (vm_compute; reflexivity).
  assert (Hsteps : continuing_group !! "steps"
                   = Some (VList (VDict <$> [bogus_action; click_btn])))
    by (vm_compute; reflexivity).
  exact (group_of_actions_always_returns continuing_group [bogus_action; click_btn]
           0 start Hcond Hsteps).
Defined.

Lemma run_of_plain_entries_returns_witness :
  ∃ R s', execute_actions continuing_run start = (Ok R, s').
Proof.
  apply run_of_plain_entries_returns. unfold continuing_run.
  repeat constructor.
  - eexists. split; [reflexivity|]. left. vm_compute. reflexivity.
  - exists continuing_group. split; [reflexivity|]. right. split.
    + vm_compute. reflexivity.
    + exists [bogus_action; click_btn]. vm_compute. reflexivity.
  - eexists. split; [reflexivity|]. left. vm_compute. reflexivity.
Defined.

Lemma continuing_group_dispatches_every_step_witness :
  ∃ results s',
    _execute_action_group (VDict continuing_group) 0 start = (Ok (results, 2%nat), s')
    ∧ status <$> results = ["failed"; "failed"].
Proof.
  destruct (_execute_action_group (VDict continuing_group) 0 start)
    as [[[results n]|e] s'] eqn:Hrun; [|by vm_compute in Hrun].
  assert (Hsteps : continuing_group !! "steps"
                   = Some (VList [VDict bogus_action; VDict click_btn]))
    by (vm_compute; reflexivity).
  assert (Hmet : (if py_truthy (default VNone (continuing_group !! "condition"))
                  then _evaluate_condition (default VNone (continuing_group !! "condition"))
                  else mret true) start = (Ok true, start))
    by (vm_compute; reflexivity).
  assert (Hall : Forall (λ step, ∀ v,
                    py_get step "continueOnError"
                      (default (VBool false) (continuing_group !! "continueOnError")) = Ok v →
                    py_truthy v = true) [VDict bogus_action; VDict click_btn]).
  { repeat constructor; intros v Hv; vm_compute in Hv; by injection Hv as <-. }
  destruct (continuing_group_dispatches_every_step continuing_group _ 0 results n
              start start s' Hsteps Hmet Hall Hrun) as (-> & _ & _).
  exists results, s'. split; [done|].
  vm_compute in Hrun. by injection Hrun as <- _.
Defined.

Lemma report_results_well_formed_witness :
  ∃ R s', execute_actions example_run start = (Ok R, s')
          ∧ Forall well_formed_result (details R).
Proof.
  destruct (execute_actions example_run start) as [[R|e] s'] eqn:Hrun;
    [|by vm_compute in Hrun].
  exists R, s'. split; [done|]. exact (report_results_well_formed _ R start s' Hrun).
Defined.

Lemma continuing_run_covers_every_step_witness :
  ∃ R s', execute_actions continuing_run start = (Ok R, s')
          ∧ length (details R) = total_declared continuing_run.
Proof.
  destruct (execute_actions continuing_run start) as [[R|e] s'] eqn:Hrun;
    [|by vm_compute in Hrun].
  assert (Hall : Forall (λ entry, ∀ a : gmap string value,
                    entry = VDict a → a !! "steps" = None →
                    py_truthy (default (VBool false) (a !! "continueOnError")) = true)
                   continuing_run).
  { unfold continuing_run. repeat constructor; intros a [= <-] Hsteps.
    - vm_compute. reflexivity.
    - by vm_compute in Hsteps.
    - vm_compute. reflexivity. }
  exists R, s'. split; [done|].
  exact (proj1 (continuing_run_covers_every_step continuing_run R start s' Hall Hrun)).
Defined.

(** ** Serialized results *)

Lemma to_dict_lookup (r : ActionResult) :
  ActionResult_to_dict r !! "index" = Some (VInt (index r))
  ∧ ActionResult_to_dict r !! "type" = Some (type r)
  ∧ ActionResult_to_dict r !! "status" = Some (VStr (status r))
  ∧ ActionResult_to_dict r !! "duration" = Some (VInt (duration r))
  ∧ ActionResult_to_dict r !! "message" = Some (VStr (message r))
  ∧ ActionResult_to_dict r !! "selector" = shown (selector r)
  ∧ ActionResult_to_dict r !! "error" = shown (error_value (error r)).
Proof.
  unfold ActionResult_to_dict, shown.
  destruct (py_truthy (selector r)), (py_truthy (error_value (error r)));
    repeat split; by simplify_map_eq.
Qed.

(** X22. [ActionResult.to_dict] always has the five keys index, type,
    status, duration and message; it has ['selector'] and ['error'] exactly
    when they are truthy, so a failed result whose error text is empty is
    serialized without error; and two results have the same dictionary exactly
    when they agree on the five fields and on what is shown of the other two. *)
Theorem to_dict_loses_only_falsy (r1 r2 : ActionResult) :
  (ActionResult_to_dict r1 !! "index" = Some (VInt (index r1))
   ∧ ActionResult_to_dict r1 !! "type" = Some (type r1)
   ∧ ActionResult_to_dict r1 !! "status" = Some (VStr (status r1))
   ∧ ActionResult_to_dict r1 !! "duration" = Some (VInt (duration r1))
   ∧ ActionResult_to_dict r1 !! "message" = Some (VStr (message r1))
   ∧ ActionResult_to_dict r1 !! "selector"
     = (if py_truthy (selector r1) then Some (selector r1) else None)
   ∧ ActionResult_to_dict r1 !! "error"
     = match error r1 with
       | Some e => if bool_decide (e = "") then None else Some (VStr e)
       | None => None
       end)
  ∧ (ActionResult_to_dict r1 = ActionResult_to_dict r2
     ↔ index r1 = index r2 ∧ type r1 = type r2 ∧ status r1 = status r2
       ∧ duration r1 = duration r2 ∧ message r1 = message r2
       ∧ shown (selector r1) = shown (selector r2)
       ∧ shown (error_value (error r1)) = shown (error_value (error r2))).
Proof.
  split.
  - destruct (to_dict_lookup r1) as (Hi & Ht & Hs & Hd & Hm & Hsel & Herr).
    repeat split; try done. rewrite Herr. unfold shown.
    destruct (error r1) as [e|]; [|done]. simpl. by case_bool_decide.
  - split.
    + intros Heq.
      destruct (to_dict_lookup r1) as (Hi1 & Ht1 & Hs1 & Hd1 & Hm1 & Hsel1 & Herr1).
      destruct (to_dict_lookup r2) as (Hi2 & Ht2 & Hs2 & Hd2 & Hm2 & Hsel2 & Herr2).
      rewrite Heq in Hi1, Ht1, Hs1, Hd1, Hm1, Hsel1, Herr1.
      repeat split; congruence.
    + intros (Hi & Ht & Hs & Hd & Hm & Hsel & Herr).
      unfold ActionResult_to_dict. unfold shown in Hsel, Herr.
      rewrite Hi, Ht, Hs, Hd, Hm.
      destruct (py_truthy (selector r1)), (py_truthy (selector r2)); try done;
        destruct (py_truthy (error_value (error r1))),
                 (py_truthy (error_value (error r2))); try done;
        congruence.
Qed.

Section SerializedReport.
Context {World Element : Type} `{!Environment World Element}.
Implicit Types s : state (World := World) (Element := Element).

(** X23. The dictionary of a returned report is consistent: its
    ['details'] list has one dictionary per result, the k-th with index k;
    ['executed'] is ['successful'] plus ['failed']; and ['executed'] plus
    ['skipped'] is the length of ['details']. *)
Theorem serialized_report_consistent (actions : list value)
    (R : ActionExecutionResults) s s' :
  execute_actions actions s = (Ok R, s') →
  ∃ (e su f sk : Z) (ds : list value),
    ActionExecutionResults_to_dict R !! "executed" = Some (VInt e)
    ∧ ActionExecutionResults_to_dict R !! "successful" = Some (VInt su)
    ∧ ActionExecutionResults_to_dict R !! "failed" = Some (VInt f)
    ∧ ActionExecutionResults_to_dict R !! "skipped" = Some (VInt sk)
    ∧ ActionExecutionResults_to_dict R !! "details" = Some (VList ds)
    ∧ e = su + f
    ∧ e + sk = Z.of_nat (length ds)
    ∧ ∀ k v, ds !! k = Some v →
        ∃ dk : gmap string value,
          v = VDict dk ∧ dk !! "index" = Some (VInt (Z.of_nat k)).
Proof.
  intros Hrun.
  apply execute_actions_inv in Hrun as ((He & Hs & Hf & Hk) & Hidx & Hknown & _).
  pose proof (count_known _ Hknown) as Hcount.
  exists (executed R), (successful R), (failed R), (skipped R),
    ((λ r, VDict (ActionResult_to_dict r)) <$> details R).
  unfold ActionExecutionResults_to_dict.
  repeat split; try by simplify_map_eq.
  - rewrite length_fmap. lia.
  - intros k v Hv. rewrite list_lookup_fmap in Hv.
    destruct (details R !! k) as [r|] eqn:Hr; [|done]. injection Hv as <-.
    eexists. split; [done|].
    destruct (to_dict_lookup r) as (-> & _). f_equal. f_equal.
    apply Hidx in Hr. lia.
Qed.
End SerializedReport.

Lemma serialized_report_consistent_witness :
  ∃ R s' (e sk : Z) (ds : list value),
    execute_actions example_run start = (Ok R, s')
    ∧ ActionExecutionResults_to_dict R !! "executed" = Some (VInt e)
    ∧ ActionExecutionResults_to_dict R !! "skipped" = Some (VInt sk)
    ∧ ActionExecutionResults_to_dict R !! "details" = Some (VList ds)
    ∧ e + sk = Z.of_nat (length ds).
Proof.
  destruct (execute_actions example_run start) as [[R|e] s'] eqn:Hrun;
    [|by vm_compute in Hrun].
  destruct (serialized_report_consistent _ R start s' Hrun)
    as (e & su & f & sk & ds & He & _ & _ & Hsk & Hds & _ & Hsum & _).
  exists R, s', e, sk, ds. split; [reflexivity|]. split; [exact He|].
  split; [exact Hsk|]. split; [exact Hds|]. exact Hsum.
Defined.
